(* ===== verification/_CoqProject ===== *)
-Q . S2P
Prelude.v
Hoare.v
PyText.v
Regex.v
PyDict.v
Runtime.v
Scanner.v
Fetcher.v
Program.v
Messages.v
Safety.v
