(* ===== verification/Prelude.v ===== *)
(** * SteamIconFixer: a verification development of [src/sif.py]

    ** The program

    [src/sif.py] (Steam Icon Fixer 1.0) is a single Python script.  It is
    run as [sif.exe <directory>] and works in two stages, glued together
    by module-level state (the [icons] dict):

    - the *scanner* (lines 87-136) enumerates the directory with
      [os.scandir], keeps the regular files whose name ends in [".url"],
      reads each one in text mode, checks for the [[InternetShortcut]]
      header with a regular expression, extracts the Steam id
      ([rungameid/...]), the icon path ([IconFile=...]) and the icon file
      name (the last backslash segment of a line) with three more regular
      expressions, and, when the icon path does not exist on disk, stores
      an [Icon] record in [icons[steamid]];
    - the *fetcher* (lines 157-184) asks for confirmation on stdin and then,
      for each entry of [icons] in dict order, downloads
      [baseurl + steamid + "/" + name] with [requests.get] and writes the
      body to the icon path, counting write failures.

    Before the scanner, lines 65-85 print the licence, warn on a non-Windows
    OS and validate [sys.argv] (exit codes 0, 1, 2).

    ** Files of the development (in dependency order)

    - [Prelude.v] (this file): the notation scope [sif_scope], text
      constants, the small state-and-exception monad [stm] in which every
      Python statement sequence is written (with stdpp's [x ← m; k]
      notation through [MRet]/[MBind] instances), the [mfor] loop
      combinator with its laws, the hint database [sif] and the generic
      lemmas on lists and prefixes used by all components.
    - [Hoare.v]: Hoare triples [{{ P }} m {{ Q }}] over that monad, whose
      postcondition also covers runs that raise, with the rules for
      return, bind, consequence and the [mfor] loop (an invariant kept by
      every iteration holds after the loop).
    - [PyText.v]: the Python string operations the script relies on:
      [str.endswith] (line 95), [str.lower] restricted to ASCII (line 149),
      and the universal-newline translation that [open(..., "r")] applies
      when reading (lines 99-101).
    - [Regex.v]: a model of Python's [re.search] for the regular
      expression fragment used by the script (literals, negated character
      classes, greedy star, one capture group), the four patterns of lines
      102 and 109-111 as values of that syntax, and direct scanning
      functions proved equal to the backtracking engine.
    - [PyDict.v]: Python's insertion-ordered [dict] as an association list
      ([icons[k] = v] updates in place or appends), its key-uniqueness
      invariant, and its refinement to stdpp's [gmap].
    - [Runtime.v]: the environment of the script (the [OS] typeclass: file
      kinds for [os.path.exists]/[os.path.isfile], [os.scandir] listings
      with what reading each entry yields, HTTP responses, writability,
      the line typed at the prompt), Python exceptions including
      [SystemExit], the [Icon] record (lines 58-63), the printed lines as
      [event]s, and the program state (the [icons] dict, the printed
      lines, the [errors] counter, the requests and the files written).
    - [Scanner.v] (Module [Scanner]): the classification of one shortcut
      (lines 102-131, [classify] returning a [verdict]), one iteration of
      the scan loop with its filters and its exception path
      ([scan_entry], lines 91-136) and the loop ([scan], line 90); and the
      spec's view of a directory entry: [queued] (the record an entry
      contributes) and [repair_step] (the spec's map, last scanned wins).
    - [Fetcher.v] (Module [Fetcher]): [requests.Response.ok], the download
      URL, one iteration of the download loop ([fetch_one], lines 162-182)
      and lines 157-184 ([fetch_all]); and the spec's per-record contract
      [spec_fetch] (one error per failed download or write).
    - [Program.v] (Module [Program]): the whole script ([main], lines
      65-184) composed of [startup] (lines 65-85), the scan, [confirm]
      (lines 138-155) and [fetch_all]; its exit status is [exit_status] of
      the exception that ends the run.
    - [Messages.v] (Module [Messages]): the licence and usage constants
      (lines 27-56), the text and colour of every [print] call as a
      function of the printed [event], termcolor's [colored] as ANSI
      wrapping under a parameter [ansi] (whether the terminal is coloured),
      and the console text a list of printed lines produces.
    - [Safety.v] (Module [Safety]): what each phase can do to the state in
      every run ([startup_run], [scan_entry_run], [confirm_run],
      [fetch_one_run]), the phases composed with the rules of [Hoare.v]
      into a rule for the whole script ([triple_main_then]), and the
      properties of all runs derived from it.

    Every component is a Section over an arbitrary instance of the [OS]
    class, so each theorem holds for every directory listing, file
    contents, server and user answer.  The theorems with hypotheses are
    applied to concrete machines at the end of their files ([demo_os]:
    a desktop with Steam shortcuts written with CRLF line ends;
    [cdn_os]; [desk_os] with a server that answers or refuses), and
    these witnesses are evaluated by [vm_compute].

    ** What the theorems show

    - the whole run ([Program]): the exit status and printed lines for each
      startup condition; on a readable directory with the answer y and a
      server that serves every icon, the run ends normally, its dict is the
      spec's last-scanned-wins map of the directory, one request goes out
      per dict entry in dict order, the error count and written files are
      those of the spec's fetcher, and the complete printed log is known
      ([main_trace]: one line per shortcut file, the number of distinct
      Steam ids, one line per download); the runs with nothing to repair,
      a declined prompt or no input at the prompt make no request; a
      directory that may not be listed ends the run with [OSError]
      ([PermissionError]) right after the search line;
    - classification ([Scanner]): each verdict (invalid format, not a Steam
      shortcut, icon present, icon path is a directory, icon missing) is
      characterised in terms of the direct scanning functions, and only the
      last one changes [icons];
    - a shortcut as Steam writes it (CRLF line ends, decimal id, Windows
      icon path) yields the record (id, full icon path, file name);
    - the scan loop refines the spec's map (a simulation between the
      association list and the [gmap] view), prints one line per shortcut
      file, keeps the dict's keys unique and every record well formed
      (stored under its own id, single-line fields without carriage
      return) even when it aborts, and stops at the first unreadable
      shortcut;
    - the regular-expression engine ([Regex]) agrees with the direct
      scanning functions, so the extracted fields are characterised as
      text (e.g. the Steam id is the rest of the first [rungameid/] line
      that is terminated by a newline);
    - [PyDict]: assignment keeps key order and is [insert] on the [gmap]
      view; [PyText]: text written with CRLF line ends reads back
      unchanged, [lower() == "y"] accepts exactly y and Y, and the
      [endswith] model is the suffix relation;
    - the fetch loop refines the spec's per-record contract when every
      record is served, and its error count is bounded by the number of
      records;
    - every run ([Safety]), whatever the environment and including the
      runs that raise: the files written are icon paths of records queued
      from the directory and did not exist before the run (no file that
      existed when the script started is overwritten), every URL
      requested is the CDN URL of such a record, the error count is at
      most the number of requests, which is at most the number of
      distinct Steam ids queued, and, when reading a shortcut can only
      fail with an [Exception], the exit status is 0, 1 or 2 and it is 2
      exactly when the argument names a regular file; every run that
      completes acts on every queued record (its id's URL is requested
      and its icon written or the write failure printed), and writes an
      icon path shared by two ids' records at least twice;
    - the console ([Messages]): the text shown when the target path does
      not exist, colours included.

    ** Findings the model makes precise

    - the exception handler of the scan loop calls
      [error.with_traceback()] without its required argument, so any
      unreadable shortcut aborts the whole run with [TypeError] and exit
      status 1 (the spec says it is logged and skipped)
      ([Program.main_unreadable]);
    - the download-failure message concatenates a [str] with the [int]
      [response.status_code], so a non-success HTTP status aborts the run
      with [TypeError] (the spec says it is counted and skipped)
      ([Program.main_download_rejected]);
    - the icon-name pattern is not tied to the [IconFile=] line
      ([Regex.re_search_iconname_earlier_line]), and the Steam-id and
      icon-path patterns are not anchored at the start of a line, unlike
      what the spec says ([Regex.re_search_steamid_earlier_line]);
    - an icon path that exists but is neither a file nor a directory is
      reported as a directory; failed writes are counted but the run still
      exits with status 0; end of input at the prompt exits with status 1
      ([Program.main_eof]), and so does a directory that may not be
      listed ([Program.main_unlistable]), although the spec reserves
      status 1 for a missing path; the [.url] test is case-sensitive;
    - the spec says the tool overwrites the file at each icon's path, but
      it only ever writes paths that did not exist
      ([Safety.main_writes_missing_icons]); and two games whose
      shortcuts name the same missing icon file are both downloaded into
      it, the second replacing the first
      ([Safety.main_shared_icon_path_written_twice]).

    ** Not modelled

    Every statement of [src/sif.py] has a definition; what is left are
    the libraries it calls, which is why the components "requests
    library", "Operating system and file system" and "Console colouring"
    are only partly modelled: their results enter through the [OS] class
    (with the failures the script can observe: a missing or non-directory
    path, an unlistable directory, an unreadable or undecodable file, a
    refused or failed request, an unwritable path, end of input) and the
    parameter [ansi].  In detail, not modelled are: how termcolor decides whether to colour (terminal detection and the
    environment variables it reads; this is the parameter [ansi] of
    [Messages]), the file system as it changes during the run (the
    script makes every existence test before its first write, so the
    writes are recorded in the state's [written] list and the [OS]
    instance describes the file system as it was at the start),
    character decoding (file contents are given as already
    decoded characters; a decoding failure is an exception of [read]), and
    the internals of [requests] beyond [Response.ok].  No fuel is needed:
    every loop of the script iterates over a finite list. *)

From stdpp Require Export base list strings gmap.
From Stdlib Require Export Ascii ZArith.

Declare Scope sif_scope.
Delimit Scope sif_scope with sif.
Open Scope sif_scope.

(** ** Text *)

(** Python [str] values that are searched character by character are
    modelled as lists of characters; other strings stay [string]. *)
Abbreviation text := (list ascii).

Definition txt (s : string) : text := String.list_ascii_of_string s.
Definition untxt (t : text) : string := String.string_of_list_ascii t.

Definition LF : ascii := "010"%char.
Definition CR : ascii := "013"%char.
Definition BSL : ascii := "092"%char.

Notation "⟪ s ⟫" := (txt s) (format "⟪ s ⟫") : sif_scope.

(** Boolean prefix test, as used by literal matching. *)
Fixpoint is_prefix (p s : text) : bool :=
  match p, s with
  | [], _ => true
  | c :: p', d :: s' => bool_decide (c = d) && is_prefix p' s'
  | _ :: _, [] => false
  end.

Lemma string_app_cons c (s1 s2 : string) : String c s1 +:+ s2 = String c (s1 +:+ s2).
Proof. done. Qed.

Lemma string_app_nil_r (s : string) : s +:+ "" = s.
Proof. induction s as [|c s IH]; [done|]. by rewrite string_app_cons, IH. Qed.

Lemma string_app_assoc (s1 s2 s3 : string) : (s1 +:+ s2) +:+ s3 = s1 +:+ (s2 +:+ s3).
Proof. induction s1 as [|c s1 IH]; [done|]. by rewrite !string_app_cons, IH. Qed.

Lemma txt_untxt t : txt (untxt t) = t.
Proof. apply String.list_ascii_of_string_of_list_ascii. Qed.

Lemma is_prefix_spec p s : is_prefix p s = true ↔ ∃ r, s = p ++ r.
Proof.
  revert s. induction p as [|c p IH]; intros [|d s]; simpl.
  - split; eauto.
  - split; eauto.
  - split; [done|]. by intros [r ?].
  - rewrite andb_true_iff, bool_decide_eq_true, IH. split.
    + intros [-> [r ->]]. eauto.
    + intros [r Hr]. simplify_eq. eauto.
Qed.

Lemma is_prefix_app p r : is_prefix p (p ++ r) = true.
Proof. apply is_prefix_spec. eauto. Qed.

(** A prefix test only looks at the first [length p] characters. *)
Lemma is_prefix_app_l p s t : length p ≤ length s → is_prefix p (s ++ t) = is_prefix p s.
Proof.
  revert s. induction p as [|c p IH]; intros [|d s] Hl; simpl in *; [done..|lia|].
  rewrite IH; [done|lia].
Qed.

(** An occurrence of [w] in [p ++ x] lies inside [p] when [x] shares no
    character with [w]. *)
Lemma occurrence_in_prefix (p x w a b : text) :
  w ≠ [] → (∀ c, c ∈ x → c ∉ w) → p ++ x = a ++ w ++ b → ∃ b', p = a ++ w ++ b'.
Proof.
  intros Hw Hx Heq. apply app_eq_app in Heq as (l & [[Hp Hl]|[Ha Hx']]).
  - apply app_eq_app in Hl as (l' & [[Hw' Hx']|[Hl Hb]]).
    + destruct l' as [|c l']; [exists []; subst; by rewrite !app_nil_r|].
      exfalso. apply (Hx c); [rewrite Hx'; left|rewrite Hw'; set_solver].
    + exists l'. by subst.
  - exfalso. destruct w as [|c w]; [done|]. apply (Hx c); [rewrite Hx'; set_solver|left].
Qed.

(** ** Options *)

Lemma is_Some_Some_True {A} (a : A) : is_Some (Some a) ↔ True.
Proof. split; eauto. Qed.

Lemma is_Some_None_False {A} : is_Some (@None A) ↔ False.
Proof. split; [by intros []|done]. Qed.

(** Close a goal about [is_Some] of concrete options. *)
Ltac is_Some_tauto :=
  rewrite ?is_Some_Some_True, ?is_Some_None_False in *; tauto.

(** ** Lists *)

(** A list with two different elements has at least two. *)
Lemma two_elem_length {A} (l : list A) x y : x ∈ l → y ∈ l → x ≠ y → 2 ≤ length l.
Proof.
  intros Hx Hy Hxy. apply (submseteq_length [x; y]), NoDup_submseteq; [|set_solver].
  constructor; [set_solver|]. apply NoDup_singleton.
Qed.

(** A boolean check over a list, for discharging membership hypotheses of
    concrete lists by computation. *)
Lemma forallb_elem_of {A} (f : A → bool) l : forallb f l = true → ∀ x, x ∈ l → f x = true.
Proof.
  intros H x Hx. rewrite forallb_forall in H. apply H. by apply list_elem_of_In.
Qed.

(** Non-membership in a concrete list, by computation. *)
Lemma not_elem_of_compute {A} `{EqDecision A} (x : A) (l : list A) :
  bool_decide (x ∈ l) = false → x ∉ l.
Proof. apply bool_decide_eq_false_1. Qed.

Lemma last_drop_lt {A} (l : list A) i : i < length l → last (drop i l) = last l.
Proof.
  intros Hi. rewrite <-(take_drop i l) at 2. rewrite last_app.
  destruct (last (drop i l)) eqn:E; [done|].
  apply last_None, (f_equal length) in E. rewrite length_drop in E. simpl in E. lia.
Qed.

(** ** A state-and-exception monad for Python statement sequences *)

(** A Python computation either completes normally with a value or raises
    an exception; in both cases the state reached so far is kept (prints
    and assignments already done are not undone). *)
Inductive outcome (E A : Type) : Type :=
  | Normal (a : A)
  | Raised (e : E).
Arguments Normal {E A} a.
Arguments Raised {E A} e.

Definition stm (E S A : Type) : Type := S → outcome E A * S.

#[export] Instance stm_ret E S : MRet (stm E S) := λ A a s, (Normal a, s).
#[export] Instance stm_bind E S : MBind (stm E S) := λ A B f m s,
  match m s with
  | (Normal a, s') => f a s'
  | (Raised e, s') => (Raised e, s')
  end.

Definition throw {E S A} (e : E) : stm E S A := λ s, (Raised e, s).
Definition modify {E S} (f : S → S) : stm E S unit := λ s, (Normal tt, f s).

(** [for x in l: body]: the loop stops at the first exception. *)
Fixpoint mfor {E S A} (l : list A) (body : A → stm E S unit) : stm E S unit :=
  match l with
  | [] => mret tt
  | x :: l' => body x ;; mfor l' body
  end.

Ltac unfold_stm := unfold mbind, mret, stm_bind, stm_ret in *.

Section monad_laws.
Context {E S : Type}.

Lemma stm_bind_assoc {A B C} (m : stm E S A) (f : A → stm E S B)
    (g : B → stm E S C) s :
  ((m ≫= f) ≫= g) s = (m ≫= (λ a, f a ≫= g)) s.
Proof. unfold_stm. by destruct (m s) as [[a|e] s']. Qed.

Lemma stm_bind_normal {A B} (m : stm E S A) (f : A → stm E S B) s a s' :
  m s = (Normal a, s') → (m ≫= f) s = f a s'.
Proof. intros H. unfold_stm. by rewrite H. Qed.

Lemma stm_bind_raised {A B} (m : stm E S A) (f : A → stm E S B) s e s' :
  m s = (Raised e, s') → (m ≫= f) s = (Raised e, s').
Proof. intros H. unfold_stm. by rewrite H. Qed.

(** A sequence that completes normally completed both its parts. *)
Lemma stm_bind_normal_inv {A B} (m : stm E S A) (f : A → stm E S B) s b s'' :
  (m ≫= f) s = (Normal b, s'') → ∃ a s', m s = (Normal a, s') ∧ f a s' = (Normal b, s'').
Proof. unfold_stm. destruct (m s) as [[a|e] s']; [by eauto|done]. Qed.

Lemma mfor_app {A} (l1 l2 : list A) (body : A → stm E S unit) s :
  mfor (l1 ++ l2) body s = (mfor l1 body ;; mfor l2 body) s.
Proof.
  revert s. induction l1 as [|x l1 IH]; intros s; [done|].
  simpl. unfold_stm. destruct (body x s) as [[[]|e] s']; [|done]. apply IH.
Qed.
End monad_laws.

Create HintDb sif discriminated.
