(* ===== verification/Hoare.v ===== *)
(** * Hoare: triples over the state-and-exception monad

    [{{ P }} m {{ Q }}] says: from every state satisfying [P], [m] ends
    with an outcome [o] (a value or a raised exception) in a state [s']
    such that [Q o s'].  Unlike a partial-correctness triple that ignores
    exceptions, the postcondition also speaks about runs that raise, so a
    triple whose postcondition ignores the outcome states a safety
    property of every run, aborted ones included.

    The rules are the usual ones for a state monad (return, bind,
    consequence, conjunction) plus the rule of the [mfor] loop: an
    invariant kept by every iteration, whatever its outcome, holds when
    the loop ends.  The postcondition [raising I G] says that [I] holds at
    the end and that an exception raised satisfies [G]; its bind rules
    ([triple_bind_raising]) compose the phases of the script in
    [Safety]. *)

From S2P Require Import Prelude.

Set Warnings "-clear-no-such-hyp".

Section hoare.
Context {E S : Type}.

Definition triple {A} (P : S → Prop) (m : stm E S A) (Q : outcome E A → S → Prop) : Prop :=
  ∀ s, P s → Q (m s).1 (m s).2.

(** A postcondition that holds whatever the outcome. *)
Definition always {A} (I : S → Prop) : outcome E A → S → Prop := λ _ s, I s.

Lemma triple_ret {A} (a : A) (P : S → Prop) Q :
  (∀ s, P s → Q (Normal a) s) → triple P (mret a) Q.
Proof. done. Qed.

Lemma triple_throw {A} (e : E) (P : S → Prop) (Q : outcome E A → S → Prop) :
  (∀ s, P s → Q (Raised e) s) → triple P (throw e) Q.
Proof. done. Qed.

Lemma triple_modify (f : S → S) (P : S → Prop) Q :
  (∀ s, P s → Q (Normal ()) (f s)) → triple P (modify f) Q.
Proof. done. Qed.

Lemma triple_consequence {A} (P P' : S → Prop) (Q Q' : outcome E A → S → Prop) m :
  triple P m Q → (∀ s, P' s → P s) → (∀ o s, Q o s → Q' o s) → triple P' m Q'.
Proof. intros H HP HQ s Hs. apply HQ, H, HP, Hs. Qed.

(** Sequencing: the middle assertion [R] describes both the normal end of
    [m], from which [f] continues, and its abort, which must already
    establish [Q]. *)
Lemma triple_bind {A B} (P : S → Prop) (R : outcome E A → S → Prop)
    (Q : outcome E B → S → Prop) (m : stm E S A) (f : A → stm E S B) :
  triple P m R →
  (∀ a, triple (R (Normal a)) (f a) Q) →
  (∀ e s, R (Raised e) s → Q (Raised e) s) →
  triple P (m ≫= f) Q.
Proof.
  intros Hm Hf He s Hs. specialize (Hm s Hs). unfold_stm.
  destruct (m s) as [[a|e] s']; simpl in *; [by apply Hf|by apply He].
Qed.

Lemma triple_conj {A} (P : S → Prop) (Q1 Q2 : outcome E A → S → Prop) m :
  triple P m Q1 → triple P m Q2 → triple P m (λ o s, Q1 o s ∧ Q2 o s).
Proof. intros H1 H2 s Hs. split; [by apply H1|by apply H2]. Qed.

(** [I] holds at the end, and an exception raised satisfies [G]. *)
Definition raising {A} (I : S → Prop) (G : E → Prop) : outcome E A → S → Prop :=
  λ o s, I s ∧ ∀ e, o = Raised e → G e.

(** The loop rule: an invariant that every iteration keeps, whether the
    iteration completes or raises, holds at the end of the loop; and the
    loop raises only exceptions that some iteration may raise. *)
Lemma triple_mfor_raise {A} (I : S → Prop) (G : E → Prop) (l : list A) (body : A → stm E S unit) :
  (∀ x, x ∈ l → triple I (body x) (raising I G)) → triple I (mfor l body) (raising I G).
Proof.
  unfold raising.
  induction l as [|x l IH]; intros Hb s Hs; simpl; unfold_stm; [done|].
  pose proof (Hb x ltac:(left) s Hs) as Hx.
  destruct (body x s) as [[[]|e] s1]; simpl in Hx; [|done].
  apply IH; [|apply Hx]. intros y Hy. apply Hb. by right.
Qed.

Lemma triple_mfor {A} (I : S → Prop) (l : list A) (body : A → stm E S unit) :
  (∀ x, x ∈ l → triple I (body x) (always I)) → triple I (mfor l body) (always I).
Proof.
  intros Hb. eapply triple_consequence; [apply (triple_mfor_raise I (λ _, True))| |]; [|done|].
  - intros x Hx. eapply triple_consequence; [by apply Hb|done|]. by intros o s' ?.
  - by intros o s' [? _].
Qed.

(** A triple read on one run. *)
Lemma triple_run {A} (P : S → Prop) (Q : outcome E A → S → Prop) m s o s' :
  triple P m Q → P s → m s = (o, s') → Q o s'.
Proof. intros H Hs Hm. specialize (H s Hs). by rewrite Hm in H. Qed.

(** A step keeps [I] when each of its runs does. *)
Lemma triple_of_runs {A} (I : S → Prop) (m : stm E S A) :
  (∀ s o s', I s → m s = (o, s') → I s') → triple I m (always I).
Proof. intros H s Hs. unfold always. apply (H s (m s).1); [done|]. by destruct (m s). Qed.

(** The loop rule on one run. *)
Lemma mfor_invariant {A} (I : S → Prop) (l : list A) (body : A → stm E S unit) s o s' :
  (∀ x s o s', x ∈ l → I s → body x s = (o, s') → I s') → I s → mfor l body s = (o, s') → I s'.
Proof.
  intros Hb. apply (triple_run I (always I)). apply triple_mfor.
  intros x Hx. apply triple_of_runs. intros. by eapply Hb.
Qed.

(** Sequencing through an intermediate assertion that already implies
    the final one, so that an abort of the first step is covered. *)
Lemma triple_bind_mid {A B} (P P' Q : S → Prop) (m : stm E S A) (f : A → stm E S B) :
  triple P m (always P') → (∀ a, triple P' (f a) (always Q)) → (∀ s, P' s → Q s) →
  triple P (m ≫= f) (always Q).
Proof. intros Hm Hf HQ. apply (triple_bind _ (always P')); [done|done|]. intros e s. apply HQ. Qed.

(** Sequencing after a step whose normal result is known to be [v]. *)
Lemma triple_bind_value {A B} (P I : S → Prop) (m : stm E S A) (f : A → stm E S B) (v : A) :
  triple P m (λ o s, I s ∧ ∀ a, o = Normal a → a = v) → triple I (f v) (always I) →
  triple P (m ≫= f) (always I).
Proof.
  intros Hm Hf. apply (triple_bind _ (λ o s, I s ∧ ∀ a, o = Normal a → a = v)); [done| |].
  - intros a s [Hs Ha]. rewrite (Ha a eq_refl). by apply Hf.
  - by intros e s [Hs _].
Qed.

(** Sequencing of two steps that both keep an invariant. *)
Lemma triple_bind_always {A B} (I : S → Prop) (m : stm E S A) (f : A → stm E S B) :
  triple I m (always I) → (∀ a, triple I (f a) (always I)) → triple I (m ≫= f) (always I).
Proof. intros Hm Hf. apply (triple_bind _ (always I)); [done|done|]. by intros. Qed.

(** Sequencing under a bound [G] on the exceptions raised, after a step
    whose normal results satisfy [V] and whose end state satisfies [R];
    [R] must imply the final [Q] for the runs that [m] aborts. *)
Lemma triple_bind_raising {A B} (P R Q : S → Prop) (G : E → Prop) (V : A → Prop)
    (m : stm E S A) (f : A → stm E S B) :
  triple P m (λ o s, raising R G o s ∧ ∀ a, o = Normal a → V a) →
  (∀ a, V a → triple R (f a) (raising Q G)) → (∀ s, R s → Q s) →
  triple P (m ≫= f) (raising Q G).
Proof.
  intros Hm Hf HRQ. apply (triple_bind _ (λ o s, raising R G o s ∧ ∀ a, o = Normal a → V a)); [done| |].
  - intros a s [[Hs _] Ha]. by apply (Hf a (Ha a eq_refl)).
  - intros e s [[Hs HG] _]. split; [by apply HRQ|]. intros e' [= <-]. by apply HG.
Qed.

Lemma triple_bind_raising_seq {A B} (I J : S → Prop) (G : E → Prop) (m : stm E S A) (f : A → stm E S B) :
  triple I m (raising I G) → (∀ a, triple I (f a) (raising J G)) → (∀ s, I s → J s) →
  triple I (m ≫= f) (raising J G).
Proof.
  intros Hm Hf. apply (triple_bind_raising _ _ _ _ (λ _, True)); [|by intros a _].
  intros s Hs. split; [exact (Hm s Hs)|done].
Qed.

End hoare.

#[warnings="-closed-notation-not-level-0"]
Notation "{{ P }} m {{ Q }}" := (triple P m Q)
  (at level 90, m at next level, format "{{  P  }}  m  {{  Q  }}") : sif_scope.

(** Decompose a program into triples of its steps. *)
Ltac triple_steps :=
  repeat match goal with
  | |- triple _ (_ ≫= _) (always _) => apply triple_bind_always; [|intros ?]
  end.
