(* ===== verification/PyText.v ===== *)
(** * PyText: the Python [str] operations used by [src/sif.py]

    [py_endswith] is [str.endswith] (line 95), [py_lower] is [str.lower]
    on ASCII text (line 149), and [universal_newlines] is the newline
    translation done by a file opened with [open(path, "r")] (lines
    99-101): ["\r\n"] and a lone ["\r"] are both read as ["\n"].  The
    lemmas characterise each operation; [crlf_encode] (how Windows tools
    write a [.url] file) is the inverse of the translation on CR-free
    text. *)

From S2P Require Import Prelude.

(** ** [str.endswith] *)

(** CPython compares the last [len(suffix)] characters, after checking
    that the suffix is not longer than the string. *)
Definition py_endswith (s suffix : text) : bool :=
  (length suffix <=? length s) && bool_decide (drop (length s - length suffix) s = suffix).

(** ** [str.lower] on ASCII *)

Definition ascii_lower (c : ascii) : ascii :=
  let n := nat_of_ascii c in
  if (65 <=? n) && (n <=? 90) then ascii_of_nat (n + 32) else c.

Definition py_lower (t : text) : text := map ascii_lower t.

(** ** Universal newlines (text-mode reading) *)

(** CPython's incremental newline decoder keeps one flag, [pendingcr]:
    whether the previous character was a ["\r"] already emitted as
    ["\n"], so that a following ["\n"] is dropped. *)
Fixpoint newline_decode (pendingcr : bool) (t : text) : text :=
  match t with
  | [] => []
  | c :: t' =>
      if bool_decide (c = CR) then LF :: newline_decode true t'
      else if pendingcr && bool_decide (c = LF) then newline_decode false t'
      else c :: newline_decode false t'
  end.

Definition universal_newlines (t : text) : text := newline_decode false t.

(** How a Windows program writes lines: every ["\n"] as ["\r\n"]. *)
Fixpoint crlf_encode (t : text) : text :=
  match t with
  | [] => []
  | c :: t' => if bool_decide (c = LF) then CR :: LF :: crlf_encode t'
               else c :: crlf_encode t'
  end.

(** ** Lemmas *)

Lemma py_endswith_spec s suffix :
  py_endswith s suffix = true ↔ ∃ p, s = p ++ suffix.
Proof.
  unfold py_endswith. rewrite andb_true_iff, Nat.leb_le, bool_decide_eq_true.
  split.
  - intros [Hle Hd]. exists (take (length s - length suffix) s).
    by rewrite <-Hd at 2; rewrite take_drop.
  - intros [p ->]. rewrite length_app.
    replace (length p + length suffix - length suffix) with (length p) by lia.
    rewrite drop_app_length. split; [lia|done].
Qed.

Lemma newline_decode_no_CR b t : CR ∉ newline_decode b t.
Proof.
  revert b. induction t as [|c t IH]; intros b; simpl; [set_solver|].
  repeat case_bool_decide; destruct b; simpl; try apply IH;
    rewrite elem_of_cons; intros [Heq|Hin]; subst; try done; by eapply IH.
Qed.

Lemma universal_newlines_no_CR t : CR ∉ universal_newlines t.
Proof. apply newline_decode_no_CR. Qed.


(** Round trip: a CR-free text written with Windows line ends is read back
    unchanged in text mode. *)
Lemma universal_newlines_crlf_encode t :
  CR ∉ t → universal_newlines (crlf_encode t) = t.
Proof.
  unfold universal_newlines. induction t as [|c t IH]; intros Hnot; [done|].
  rewrite elem_of_cons in Hnot. simpl. case_bool_decide as Hc.
  - subst c. simpl. f_equal. naive_solver.
  - simpl. rewrite bool_decide_eq_false_2 by naive_solver. simpl.
    f_equal. naive_solver.
Qed.

Lemma ascii_lower_y c : ascii_lower c = "y"%char ↔ c = "y"%char ∨ c = "Y"%char.
Proof.
  split.
  - destruct c as [[] [] [] [] [] [] [] []]; vm_compute; intros H;
      first [by left | by right | discriminate H].
  - by intros [-> | ->].
Qed.

(** input().lower() == "y" holds exactly for the answers y and Y. *)
Lemma py_lower_eq_y t : py_lower t = ⟪"y"⟫ ↔ t = ⟪"y"⟫ ∨ t = ⟪"Y"⟫.
Proof.
  unfold py_lower. destruct t as [|c [|d t]]; simpl.
  - split; [done|]. by intros [|].
  - split.
    + intros [= H]. apply ascii_lower_y in H as [-> | ->]; auto.
    + by intros [[= ->] | [= ->]].
  - split; [done|]. by intros [|].
Qed.
