(* ===== verification/Regex.v ===== *)
(** * Regex: Python's [re.search] on the patterns of [src/sif.py]

    The script calls [re.search] four times on the shortcut's contents
    (lines 102 and 109-111).  Their patterns use literals, negated
    character classes, a greedy [*] and one capture group.  [match_here]
    is a backtracking matcher for that fragment with the priorities of
    Python's [sre] engine (a greedy star tries its longest run first and
    gives characters back one at a time); [re_search] tries each start
    position from left to right, including the end of the string, and
    [group1] is [Match.group(1)].

    The second half defines direct scanning functions ([contains],
    [field_value], [last_segment]) and proves each equal to the engine on
    its pattern, which characterises what the script extracts. *)

From S2P Require Import Prelude.

Set Warnings "-clear-no-such-hyp".

(** ** Syntax *)

Inductive atom : Type :=
  | AChar (c : ascii)            (** a literal character *)
  | ANotIn (cs : list ascii).    (** a negated class [[^...]] *)

Inductive node : Type :=
  | NAtom (a : atom)
  | NStar (a : atom)             (** greedy [a*] *)
  | NOpen                        (** [(] of group 1 *)
  | NClose.                      (** [)] of group 1 *)

Abbreviation regex := (list node).

Definition atom_ok (a : atom) (c : ascii) : bool :=
  match a with
  | AChar d => bool_decide (c = d)
  | ANotIn cs => bool_decide (c ∉ cs)
  end.

(** The marks of group 1, as positions in the searched string. *)
Record caps : Type := Caps { cap_start : option nat; cap_end : option nat }.
Definition no_caps : caps := Caps None None.

(** The literal string [w] as a sequence of character atoms. *)
Definition lit (w : text) : regex := map (λ c, NAtom (AChar c)) w.

(** ** Matching *)

(** Length of the longest prefix of [s] whose characters satisfy [a]. *)
Fixpoint run_len (a : atom) (s : text) : nat :=
  match s with
  | [] => 0
  | c :: s' => if atom_ok a c then S (run_len a s') else 0
  end.

(** Try the continuation with [k], [k-1], ..., [0] repetitions. *)
Fixpoint backtrack {A} (f : nat → option A) (k : nat) : option A :=
  match f k with
  | Some x => Some x
  | None => match k with 0 => None | S k' => backtrack f k' end
  end.

(** [match_here r s pos g]: match [r] at the start of [s], which begins at
    position [pos] of the searched string, with marks [g] so far. *)
Fixpoint match_here (r : regex) (s : text) (pos : nat) (g : caps) : option caps :=
  match r with
  | [] => Some g
  | NAtom a :: r' =>
      match s with
      | c :: s' => if atom_ok a c then match_here r' s' (S pos) g else None
      | [] => None
      end
  | NStar a :: r' =>
      backtrack (λ k, match_here r' (drop k s) (pos + k) g) (run_len a s)
  | NOpen :: r' => match_here r' s pos (Caps (Some pos) (cap_end g))
  | NClose :: r' => match_here r' s pos (Caps (cap_start g) (Some pos))
  end.

(** A match object: its start position and the marks of group 1. *)
Abbreviation match_obj := (nat * caps)%type.

Fixpoint search_from (r : regex) (s : text) (pos : nat) : option match_obj :=
  match match_here r s pos no_caps with
  | Some g => Some (pos, g)
  | None => match s with [] => None | _ :: s' => search_from r s' (S pos) end
  end.

Definition re_search (r : regex) (s : text) : option match_obj := search_from r s 0.

(** [m.group(1)] of a match in [s]; all patterns below always set both
    marks of a successful match. *)
Definition group1 (s : text) (m : match_obj) : text :=
  match snd m with
  | Caps (Some i) (Some j) => take (j - i) (drop i s)
  | _ => []
  end.

(** ** The patterns of the script *)

(** [r"\[InternetShortcut\]\n"] (line 102) *)
Definition pat_header : regex := lit (⟪"[InternetShortcut]"⟫ ++ [LF]).

(** [key], then group 1 capturing a greedy run of [[^\n]], then [\n]. *)
Definition field_pat (key : text) : regex :=
  lit key ++ [NOpen; NStar (ANotIn [LF]); NClose; NAtom (AChar LF)].

(** Line 109: the literal [rungameid/] followed by a captured
    [[^\n]] run and a line feed. *)
Definition pat_steamid : regex := field_pat ⟪"rungameid/"⟫.

(** Line 110: the literal [IconFile=] followed by a captured [[^\n]]
    run and a line feed. *)
Definition pat_iconpath : regex := field_pat ⟪"IconFile="⟫.

(** Line 111: a backslash, a captured greedy run of [[^\n\]] (neither
    line feed nor backslash), and a line feed. *)
Definition pat_iconname : regex :=
  [NAtom (AChar BSL); NOpen; NStar (ANotIn [LF; BSL]); NClose; NAtom (AChar LF)].

(** ** Direct scanning functions *)

(** The characters before the first line feed, provided none of them is
    in [cs] ([cs] contains the line feed). *)
Fixpoint class_line (cs : list ascii) (s : text) : option text :=
  match s with
  | [] => None
  | c :: s' =>
      if bool_decide (c = LF) then Some []
      else if bool_decide (c ∈ cs) then None
      else (c ::.) <$> class_line cs s'
  end.

(** Leftmost suffix on which [F] succeeds. *)
Fixpoint find_first {A} (F : text → option A) (s : text) : option A :=
  match F s with
  | Some v => Some v
  | None => match s with [] => None | _ :: s' => find_first F s' end
  end.

(** Whether [w] occurs in [s]. *)
Definition contains (w s : text) : bool :=
  bool_decide (is_Some (find_first (λ s', if is_prefix w s' then Some () else None) s)).

(** The rest of the line after the first occurrence of [key] that lies on
    a line ended by a line feed. *)
Definition field_value (key s : text) : option text :=
  find_first (λ s', if is_prefix key s' then class_line [LF] (drop (length key) s') else None) s.

(** The text after the first backslash that is the last one of its
    line, on a line ended by a line feed. *)
Definition last_segment (s : text) : option text :=
  find_first (λ s', match s' with
                    | c :: s'' => if bool_decide (c = BSL) then class_line [LF; BSL] s'' else None
                    | [] => None
                    end) s.

(** Whether [key] occurs in [p ++ key] only as its suffix. *)
Definition first_at_end (key p : text) : bool :=
  forallb (λ i, negb (is_prefix key (drop i p ++ key))) (seq 0 (length p)).

Example field_value_run :
  field_value ⟪"rungameid/"⟫ ⟪"[InternetShortcut]
URL=steam://rungameid/570
IconFile=C:\Steam\icons\dota.ico
"⟫ = Some ⟪"570"⟫.
Proof. vm_compute. reflexivity. Qed.

Example re_search_steamid_run :
  option_map (group1 ⟪"URL=steam://rungameid/570
"⟫) (re_search pat_steamid ⟪"URL=steam://rungameid/570
"⟫) = Some ⟪"570"⟫.
Proof. vm_compute. reflexivity. Qed.

(** ** Lemmas on the engine *)

Lemma match_here_lit w r s pos g :
  match_here (lit w ++ r) s pos g =
  if is_prefix w s then match_here r (drop (length w) s) (pos + length w) g else None.
Proof.
  revert s pos. induction w as [|c w IH]; intros s pos; simpl.
  - by rewrite Nat.add_0_r.
  - destruct s as [|d s]; [done|]. simpl.
    rewrite (bool_decide_ext (d = c) (c = d)) by done.
    destruct (bool_decide (c = d)); simpl; [|done].
    rewrite IH. by replace (S pos + length w) with (pos + S (length w)) by lia.
Qed.

Lemma match_here_atom a r c s pos g :
  match_here (NAtom a :: r) (c :: s) pos g =
  if atom_ok a c then match_here r s (S pos) g else None.
Proof. done. Qed.

Lemma backtrack_S {A} (f : nat → option A) n :
  backtrack f (S n) =
  match backtrack (λ k, f (S k)) n with Some x => Some x | None => f 0 end.
Proof.
  induction n as [|n IH]; simpl.
  - destruct (f 1), (f 0); done.
  - destruct (f (S (S n))); [done|]. apply IH.
Qed.

Lemma backtrack_ext {A} (f f' : nat → option A) n :
  (∀ k, f k = f' k) → backtrack f n = backtrack f' n.
Proof. intros Hf. induction n as [|n IH]; simpl; rewrite Hf; [done|]. by rewrite IH. Qed.

#[export] Instance backtrack_proper {A} :
  Proper (pointwise_relation nat eq ==> eq ==> eq) (@backtrack A).
Proof. intros f f' Hf n ? <-. by apply backtrack_ext. Qed.

(** The end of a field pattern: close the group and expect a line feed. *)
Lemma match_here_close_LF t p g :
  match_here [NClose; NAtom (AChar LF)] t p g =
  match t with
  | c :: _ => if bool_decide (c = LF) then Some (Caps (cap_start g) (Some p)) else None
  | [] => None
  end.
Proof. destruct t; simpl; [done|]. by case_bool_decide. Qed.

Lemma star_class_line cs s pos st e :
  LF ∈ cs →
  backtrack (λ k, match_here [NClose; NAtom (AChar LF)] (drop k s) (pos + k) (Caps st e))
    (run_len (ANotIn cs) s) =
  (λ v, Caps st (Some (pos + length v))) <$> class_line cs s.
Proof.
  intros HLF. revert pos. induction s as [|c s IH]; intros pos; [done|].
  cbn [run_len atom_ok class_line].
  assert (c ∉ cs → c ≠ LF) as HcLF by (by intros ? ->).
  case_bool_decide as Hc.
  - rewrite backtrack_S. cbn [drop].
    specialize (IH (S pos)). cbn [Nat.add] in IH.
    setoid_rewrite Nat.add_succ_r. rewrite IH.
    rewrite match_here_close_LF, !bool_decide_eq_false_2 by auto.
    destruct (class_line cs s); simpl; [|done].
    do 3 f_equal. lia.
  - cbn [backtrack drop]. rewrite match_here_close_LF, Nat.add_0_r.
    case_bool_decide as Hl; simpl; [by rewrite Nat.add_0_r|].
    by rewrite bool_decide_eq_true_2.
Qed.

Lemma match_here_field_tail cs s pos g :
  LF ∈ cs →
  match_here [NOpen; NStar (ANotIn cs); NClose; NAtom (AChar LF)] s pos g =
  (λ v, Caps (Some pos) (Some (pos + length v))) <$> class_line cs s.
Proof. intros HLF. apply (star_class_line cs s pos (Some pos) (cap_end g) HLF). Qed.

Lemma class_line_take cs t v : class_line cs t = Some v → take (length v) t = v.
Proof.
  revert v. induction t as [|c t IH]; intros v; simpl; [done|].
  case_bool_decide; [by intros [= <-]|].
  case_bool_decide; [done|].
  destruct (class_line cs t) as [v'|] eqn:E; simpl; [|done].
  intros [= <-]. simpl. f_equal. by apply IH.
Qed.

Lemma group1_caps s0 pos L v :
  take (length v) (drop L (drop pos s0)) = v →
  group1 s0 (pos, Caps (Some (pos + L)) (Some (pos + L + length v))) = v.
Proof.
  intros H. unfold group1. simpl.
  replace (pos + L + length v - (pos + L)) with (length v) by lia.
  by rewrite <-drop_drop.
Qed.

(** Leftmost search agrees with [find_first] when the matcher at each
    position is described by [F] (group 1 starts [L] characters after the
    match start and holds the value returned by [F]). *)
Lemma search_from_find_first r (F : text → option text) L s0 pos :
  (∀ s' p g, match_here r s' p g =
             (λ v, Caps (Some (p + L)) (Some (p + L + length v))) <$> F s') →
  (∀ s' v, F s' = Some v → take (length v) (drop L s') = v) →
  option_map (group1 s0) (search_from r (drop pos s0) pos) = find_first F (drop pos s0).
Proof.
  intros HF Htake. remember (drop pos s0) as s eqn:Hs.
  revert pos Hs. induction s as [|c s IH]; intros pos Hs; simpl; rewrite HF.
  - destruct (F []) as [v|] eqn:E; simpl; [|done].
    f_equal. apply group1_caps. rewrite <-Hs. by apply Htake.
  - destruct (F (c :: s)) as [v|] eqn:E; simpl.
    + f_equal. apply group1_caps. rewrite <-Hs. by apply Htake.
    + apply IH. replace (S pos) with (pos + 1) by lia. by rewrite <-drop_drop, <-Hs.
Qed.

Lemma search_from_is_Some r {A} (F : text → option A) s pos :
  (∀ s' p g, is_Some (match_here r s' p g) ↔ is_Some (F s')) →
  is_Some (search_from r s pos) ↔ is_Some (find_first F s).
Proof.
  intros HF. revert pos. induction s as [|c s IH]; intros pos; simpl.
  - specialize (HF [] pos no_caps).
    destruct (match_here _ _ pos no_caps), (F _); is_Some_tauto.
  - pose proof (HF (c :: s) pos no_caps) as Hc.
    destruct (match_here _ _ pos no_caps), (F _); try is_Some_tauto.
    apply IH.
Qed.

Lemma find_first_is_Some {A} (F : text → option A) s :
  is_Some (find_first F s) ↔ ∃ p s', s = p ++ s' ∧ is_Some (F s').
Proof.
  induction s as [|c s IH]; simpl; destruct (F _) eqn:E.
  - split; [|eauto]. intros _. exists [], []. rewrite E. eauto.
  - split; [by intros []|]. intros (p & s' & Hs & HF).
    symmetry in Hs. apply app_nil in Hs as [-> ->]. by rewrite E in HF.
  - split; [|eauto]. intros _. exists [], (c :: s). rewrite E. eauto.
  - rewrite IH. split.
    + intros (p & s' & -> & HF). by exists (c :: p), s'.
    + intros ([|d p] & s' & Hs & HF); simpl in Hs.
      * subst s'. by rewrite E in HF.
      * injection Hs as -> ->. eauto.
Qed.

Lemma contains_spec w s : contains w s = true ↔ ∃ p r, s = p ++ w ++ r.
Proof.
  unfold contains. rewrite bool_decide_eq_true, find_first_is_Some. split.
  - intros (p & s' & -> & HF). destruct (is_prefix w s') eqn:E; [|by destruct HF].
    apply is_prefix_spec in E as [r ->]. eauto.
  - intros (p & r & ->). exists p, (w ++ r). by rewrite is_prefix_app.
Qed.

Lemma contains_app_r w s t : contains w s = true → contains w (s ++ t) = true.
Proof.
  rewrite !contains_spec. intros (p & r & ->). exists p, (r ++ t). by rewrite <-!app_assoc.
Qed.

(** ** The four searches of the script, characterised *)

(** The header test of line 102 succeeds exactly when the contents contain
    [[InternetShortcut]] immediately followed by a line feed, anywhere. *)
Lemma re_search_header_spec_core s :
  is_Some (re_search pat_header s) ↔ ∃ p r, s = p ++ ⟪"[InternetShortcut]"⟫ ++ LF :: r.
Proof.
  unfold re_search. rewrite (search_from_is_Some _
    (λ s', if is_prefix (⟪"[InternetShortcut]"⟫ ++ [LF]) s' then Some () else None)).
  - pose proof (contains_spec (⟪"[InternetShortcut]"⟫ ++ [LF]) s) as Hc.
    unfold contains in Hc. rewrite bool_decide_eq_true in Hc. rewrite Hc.
    by setoid_rewrite <-app_assoc.
  - intros s' p g. unfold pat_header. rewrite <-(app_nil_r (lit _)), match_here_lit.
    destruct (is_prefix _ s'); simpl; split; eauto; by intros [].
Qed.

(** C21: The header search of line 102 succeeds exactly when the contents
    contain [InternetShortcut] immediately followed by a newline, anywhere
    in the text. *)
Theorem re_search_header_spec s :
  is_Some (re_search pat_header s) ↔ ∃ p r, s = p ++ ⟪"[InternetShortcut]"⟫ ++ LF :: r.
Proof. apply re_search_header_spec_core. Qed.

(** The searches of lines 109-110: group 1 of [field_pat key] is the
    value found by [field_value]. *)
Lemma re_search_field_value_core key s :
  option_map (group1 s) (re_search (field_pat key) s) = field_value key s.
Proof.
  pose proof (search_from_find_first (field_pat key)
    (λ s', if is_prefix key s' then class_line [LF] (drop (length key) s') else None)
    (length key) s 0) as H.
  rewrite drop_0 in H. apply H.
  - intros s' p g. unfold field_pat. rewrite match_here_lit.
    destruct (is_prefix key s'); [|done].
    rewrite match_here_field_tail by set_solver. done.
  - intros s' v. destruct (is_prefix key s'); [apply class_line_take|done].
Qed.

(** C19: Group 1 of re.search with the patterns of lines 109-110 (key,
    captured run of non-newlines, newline) equals the direct scan
    field_value: the rest of the line after the first occurrence of the key
    that lies on a newline-terminated line. *)
Theorem re_search_field_value key s :
  option_map (group1 s) (re_search (field_pat key) s) = field_value key s.
Proof. apply re_search_field_value_core. Qed.

(** The search of line 111: group 1 is the segment found by
    [last_segment]. *)
Lemma re_search_last_segment_core s :
  option_map (group1 s) (re_search pat_iconname s) = last_segment s.
Proof.
  pose proof (search_from_find_first pat_iconname
    (λ s', match s' with
           | c :: s'' => if bool_decide (c = BSL) then class_line [LF; BSL] s'' else None
           | [] => None
           end) 1 s 0) as H.
  rewrite drop_0 in H. apply H.
  - intros [|c s'] p g; [done|]. unfold pat_iconname.
    rewrite match_here_atom. cbn [atom_ok]. case_bool_decide; [|done].
    rewrite match_here_field_tail by set_solver.
    by rewrite Nat.add_1_r.
  - intros [|c s'] v; [done|]. case_bool_decide; [|done]. apply class_line_take.
Qed.

(** C20: Group 1 of re.search with the pattern of line 111 equals the direct
    scan last_segment: the text after the first backslash that is the last
    backslash of its newline-terminated line. *)
Theorem re_search_last_segment s :
  option_map (group1 s) (re_search pat_iconname s) = last_segment s.
Proof. apply re_search_last_segment_core. Qed.

(** ** What the fields are, as text *)

Lemma class_line_exact cs v r :
  LF ∉ v → (∀ x, x ∈ v → x ∉ cs) → class_line cs (v ++ LF :: r) = Some v.
Proof.
  induction v as [|c v IH]; intros Hlf Hcs; simpl; [done|].
  rewrite not_elem_of_cons in Hlf. destruct Hlf as [Hc Hlf].
  rewrite bool_decide_eq_false_2 by done.
  rewrite bool_decide_eq_false_2 by (apply Hcs; left).
  rewrite IH; [done|done|]. intros x Hx. apply Hcs. by right.
Qed.

Lemma class_line_blocked cs u c w :
  LF ∉ u → c ∈ cs → c ≠ LF → class_line cs (u ++ c :: w) = None.
Proof.
  intros Hlf Hc Hne. induction u as [|d u IH]; simpl.
  - case_bool_decide; [done|]. by rewrite bool_decide_eq_true_2.
  - rewrite not_elem_of_cons in Hlf. destruct Hlf as [Hd Hlf].
    rewrite bool_decide_eq_false_2 by done.
    case_bool_decide; [done|]. by rewrite IH.
Qed.

(** A value found by [class_line] is made of characters of the text,
    none of them a line feed or in [cs]. *)
Lemma class_line_chars cs s v :
  class_line cs s = Some v → ∀ x, x ∈ v → x ∈ s ∧ x ≠ LF ∧ x ∉ cs.
Proof.
  revert v. induction s as [|c s IH]; intros v; simpl; [done|].
  case_bool_decide; [intros [= <-]; set_solver|].
  case_bool_decide; [done|].
  destruct (class_line cs s) as [v'|] eqn:E; simpl; [|done].
  intros [= <-] x Hx. apply elem_of_cons in Hx as [->|Hx]; [set_solver|].
  destruct (IH v' eq_refl x Hx) as (? & ? & ?). set_solver.
Qed.

Lemma find_first_chars (F : text → option text) (P : ascii → Prop) s v :
  (∀ s' v, F s' = Some v → ∀ x, x ∈ v → x ∈ s' ∧ P x) →
  find_first F s = Some v → ∀ x, x ∈ v → x ∈ s ∧ P x.
Proof.
  intros HF. induction s as [|c s IH]; simpl; destruct (F _) eqn:E.
  - intros [= <-]. by apply HF.
  - done.
  - intros [= <-]. by apply HF.
  - intros Hs x Hx. destruct (IH Hs x Hx). set_solver.
Qed.

(** The values of lines 109-110 are pieces of one line of the contents. *)
Lemma field_value_chars key s v :
  field_value key s = Some v → ∀ x, x ∈ v → x ∈ s ∧ x ≠ LF.
Proof.
  apply find_first_chars. intros s' v'. destruct (is_prefix key s'); [|done].
  intros Hc x Hx. destruct (class_line_chars _ _ _ Hc x Hx) as (Hin & ? & _).
  split; [|done]. by apply (subseteq_drop (length key) s').
Qed.

(** The value of line 111 is a piece of one line of the contents. *)
Lemma last_segment_chars s v :
  last_segment s = Some v → ∀ x, x ∈ v → x ∈ s ∧ x ≠ LF.
Proof.
  apply find_first_chars. intros [|c s'] v'; [done|].
  case_bool_decide; [|done]. intros Hc x Hx.
  destruct (class_line_chars _ _ _ Hc x Hx) as (? & ? & _). set_solver.
Qed.

Lemma last_segment_no_BSL u s : BSL ∉ u → last_segment (u ++ s) = last_segment s.
Proof.
  unfold last_segment. induction u as [|c u IH]; intros Hu; [done|].
  rewrite not_elem_of_cons in Hu. destruct Hu as [Hc Hu]. simpl.
  rewrite bool_decide_eq_false_2 by done. by apply IH.
Qed.

(** The backslashes of a path before its last one are skipped: the rest of
    their line still holds a backslash. *)
Lemma last_segment_dir dir t : LF ∉ dir → last_segment (dir ++ BSL :: t) = last_segment (BSL :: t).
Proof.
  unfold last_segment. induction dir as [|c dir IH]; intros Hd; [done|].
  rewrite not_elem_of_cons in Hd. destruct Hd as [Hc Hd]. simpl.
  case_bool_decide; [|by apply IH].
  rewrite class_line_blocked; [by apply IH|done|set_solver|done].
Qed.

(** The icon name of line 111 is the file name of the icon path when no
    backslash occurs before the [IconFile=] line. *)
Theorem last_segment_basename p dir base r :
  BSL ∉ p → LF ∉ dir → LF ∉ base → BSL ∉ base →
  last_segment (p ++ ⟪"IconFile="⟫ ++ dir ++ BSL :: base ++ LF :: r) = Some base.
Proof.
  intros Hp Hd Hlf Hb. rewrite app_assoc, last_segment_no_BSL.
  - rewrite last_segment_dir by done. unfold last_segment. simpl.
    rewrite class_line_exact; [done|done|]. intros x Hx. set_solver.
  - rewrite elem_of_app. intros [|Hk]; [done|].
    exact (bool_decide_eq_false_1 (BSL ∈ ⟪"IconFile="⟫) eq_refl Hk).
Qed.

Lemma find_first_skip {A} (F : text → option A) u s :
  (∀ i, i < length u → F (drop i u ++ s) = None) → find_first F (u ++ s) = find_first F s.
Proof.
  induction u as [|c u IH]; intros H; [done|]. simpl.
  pose proof (H 0 ltac:(simpl; lia)) as H0. simpl in H0. rewrite H0.
  apply IH. intros i Hi. apply (H (S i)). simpl. lia.
Qed.

Lemma find_first_hit {A} (F : text → option A) s v : F s = Some v → find_first F s = Some v.
Proof. intros H. destruct s; simpl; by rewrite H. Qed.

(** The searches of lines 109-110 return the rest of the line after the
    key when the key starts a line and does not occur earlier. *)
Theorem field_value_first p key v r :
  LF ∉ key → LF ∉ v → (p = [] ∨ last p = Some LF) → (∀ a b, p ≠ a ++ key ++ b) →
  field_value key (p ++ key ++ v ++ LF :: r) = Some v.
Proof.
  intros Hk Hv Hp Hocc. unfold field_value. rewrite find_first_skip.
  - apply find_first_hit. rewrite is_prefix_app, drop_app_length.
    apply class_line_exact; [done|set_solver].
  - intros i Hi. destruct (is_prefix key _) eqn:E; [|done]. exfalso.
    apply is_prefix_spec in E as [t Ht].
    destruct Hp as [->|Hlast]; [simpl in Hi; lia|].
    apply app_eq_app in Ht as (l & [[Hq _]|[Hkey _]]).
    + apply (Hocc (take i p) l). by rewrite <-Hq, take_drop.
    + apply Hk. rewrite Hkey. apply elem_of_app. left.
      apply last_Some_elem_of. by rewrite last_drop_lt.
Qed.

(** The search of a key that does not start a line: the value is the rest
    of the line when the key occurs in [p ++ key] only at its end. *)
Lemma field_value_at p key v r :
  LF ∉ v → first_at_end key p = true →
  field_value key (p ++ key ++ v ++ LF :: r) = Some v.
Proof.
  intros Hv Hp. unfold field_value. rewrite find_first_skip.
  - apply find_first_hit. rewrite is_prefix_app, drop_app_length.
    apply class_line_exact; [done|set_solver].
  - intros i Hi. rewrite app_assoc, is_prefix_app_l by (rewrite length_app; lia).
    unfold first_at_end in Hp. rewrite forallb_forall in Hp.
    specialize (Hp i ltac:(apply in_seq; lia)). apply negb_true_iff in Hp. by rewrite Hp.
Qed.

(** When no backslash occurs before the IconFile= line, the icon name
    extracted at line 111 is the file name (last backslash segment) of the
    icon path. *)
Theorem re_search_iconname_basename p dir base r :
  BSL ∉ p → LF ∉ dir → LF ∉ base → BSL ∉ base →
  let c := p ++ ⟪"IconFile="⟫ ++ dir ++ BSL :: base ++ LF :: r in
  option_map (group1 c) (re_search pat_iconname c) = Some base.
Proof. intros. rewrite re_search_last_segment_core. by apply last_segment_basename. Qed.

(** When the key starts a line and does not occur earlier, the Steam id
    or icon path extracted at lines 109-110 is exactly the rest of that
    line. *)
Theorem re_search_field_first p key v r :
  LF ∉ key → LF ∉ v → (p = [] ∨ last p = Some LF) → (∀ a b, p ≠ a ++ key ++ b) →
  let c := p ++ key ++ v ++ LF :: r in
  option_map (group1 c) (re_search (field_pat key) c) = Some v.
Proof. intros. rewrite re_search_field_value_core. by apply field_value_first. Qed.

(** The icon-name pattern is not anchored to the IconFile= line: with a
    Comment=C:\readme.txt line before it, the extracted icon name is
    readme.txt, not the icon path's file name. *)
Example re_search_iconname_earlier_line :
  let c := ⟪"[InternetShortcut]
Comment=C:\readme.txt
URL=steam://rungameid/570
IconFile=C:\Steam\games\dota.ico
"⟫ in
  option_map (group1 c) (re_search pat_iconname c) = Some ⟪"readme.txt"⟫.
Proof. vm_compute. reflexivity. Qed.

(** The Steam-id search of line 109 is not anchored at the start of a
    line: with a comment line mentioning rungameid/42 before the URL line
    rungameid/570, the extracted Steam id is 42. *)
Example re_search_steamid_earlier_line :
  let c := ⟪"[InternetShortcut]
Comment=launch with steam://rungameid/42
URL=steam://rungameid/570
IconFile=C:\Steam\games\dota.ico
"⟫ in
  option_map (group1 c) (re_search pat_steamid c) = Some ⟪"42"⟫.
Proof. vm_compute. reflexivity. Qed.

Definition demo_header : text := ⟪"[InternetShortcut]"⟫ ++ [LF].

Lemma re_search_iconname_basename_witness :
  let c := demo_header ++ ⟪"IconFile="⟫ ++ ⟪"C:\Steam\games"⟫ ++ BSL :: ⟪"dota.ico"⟫ ++ [LF] in
  option_map (group1 c) (re_search pat_iconname c) = Some ⟪"dota.ico"⟫.
Proof.
  apply (re_search_iconname_basename demo_header ⟪"C:\Steam\games"⟫ ⟪"dota.ico"⟫ []);
    apply not_elem_of_compute; vm_compute; reflexivity.
Defined.

Lemma re_search_field_first_witness :
  let c := demo_header ++ ⟪"IconFile="⟫ ++ ⟪"C:\dota.ico"⟫ ++ [LF] in
  option_map (group1 c) (re_search (field_pat ⟪"IconFile="⟫) c) = Some ⟪"C:\dota.ico"⟫.
Proof.
  apply (re_search_field_first demo_header ⟪"IconFile="⟫ ⟪"C:\dota.ico"⟫ []);
    [apply not_elem_of_compute; vm_compute; reflexivity ..
    | right; reflexivity
    | intros a b Hp].
  assert (contains ⟪"IconFile="⟫ demo_header = true) as Hc
    by (apply contains_spec; rewrite Hp; eauto).
  vm_compute in Hc. discriminate Hc.
Defined.
