(* ===== verification/PyDict.v ===== *)
(** * PyDict: Python's insertion-ordered [dict]

    The script keeps its repair records in the module-level dict [icons]
    (line 24), assigns [icons[steamid] = Icon(...)] (line 131), reads
    [len(icons)] (lines 141, 146, 158) and iterates [icons.items()] (line
    162).  A Python dict remembers insertion order, and assigning to an
    existing key replaces the value in place without moving the key.  We
    model it as an association list [list (K * V)] with those semantics.

    Theorems: the keys stay unique; [dict_get] after [dict_set]; the key
    order after one assignment and after a sequence of them
    ([dict_set_all]: first-insertion order); [len] is the size of the map
    view; and the refinement of the dict to a stdpp [gmap]
    ([dict_to_map]), under which [dict_set] is [insert]. *)

From S2P Require Import Prelude.

Set Warnings "-clear-no-such-hyp".

Abbreviation pydict K V := (list (K * V)).

Section pydict.
Context {K V : Type} `{EqDecision K}.

(** [d[k] = v] *)
Fixpoint dict_set (k : K) (v : V) (d : pydict K V) : pydict K V :=
  match d with
  | [] => [(k, v)]
  | (k', v') :: d' => if decide (k = k') then (k', v) :: d'
                      else (k', v') :: dict_set k v d'
  end.

(** [d.get(k)] *)
Fixpoint dict_get (k : K) (d : pydict K V) : option V :=
  match d with
  | [] => None
  | (k', v') :: d' => if decide (k = k') then Some v' else dict_get k d'
  end.

(** [d.keys()] in iteration order. *)
Definition dict_keys (d : pydict K V) : list K := d.*1.

(** The dict invariant: no key occurs twice. *)
Definition dict_wf (d : pydict K V) : Prop := NoDup (dict_keys d).

Lemma dict_get_set_eq k v d : dict_get k (dict_set k v d) = Some v.
Proof.
  induction d as [|[k' v'] d IH]; simpl; [by rewrite decide_True|].
  case_decide; simpl; [by rewrite decide_True|]. by rewrite decide_False.
Qed.

Lemma dict_get_set_ne k k2 v d :
  k ≠ k2 → dict_get k2 (dict_set k v d) = dict_get k2 d.
Proof.
  intros Hne. induction d as [|[k' v'] d IH]; simpl.
  - by rewrite decide_False.
  - case_decide as Hk; simpl.
    + subst k'. case_decide; [congruence|done].
    + by case_decide.
Qed.

Lemma dict_get_Some k v d : dict_get k d = Some v → (k, v) ∈ d.
Proof.
  induction d as [|[k' v'] d IH]; simpl; [done|].
  case_decide; [intros [= ->]; subst; left|]; set_solver.
Qed.

(** Assignment keeps the position of an existing key and appends a new
    key at the end. *)
Lemma dict_keys_set k v d :
  dict_keys (dict_set k v d) =
  if decide (k ∈ dict_keys d) then dict_keys d else dict_keys d ++ [k].
Proof.
  unfold dict_keys. induction d as [|[k' v'] d IH]; [done|].
  cbn [dict_set]. destruct (decide (k = k')) as [->|Hk]; rewrite !fmap_cons; simpl.
  - by rewrite decide_True by set_solver.
  - rewrite IH. destruct (decide (k ∈ d.*1)).
    + by rewrite decide_True by set_solver.
    + by rewrite decide_False by set_solver.
Qed.

(** Assignments in sequence. *)
Definition dict_set_all (d : pydict K V) (kvs : list (K * V)) : pydict K V :=
  foldl (λ d kv, dict_set kv.1 kv.2 d) d kvs.

(** The keys of [ks] in the order of their first occurrence after those
    of [acc]. *)
Definition first_occurrences (acc ks : list K) : list K :=
  foldl (λ acc k, if decide (k ∈ acc) then acc else acc ++ [k]) acc ks.

(** The keys after a sequence of assignments. *)
Lemma dict_set_all_keys d kvs :
  dict_keys (dict_set_all d kvs) = first_occurrences (dict_keys d) (kvs.*1).
Proof.
  revert d. induction kvs as [|[k v] kvs IH]; intros d; [done|].
  cbn [dict_set_all foldl fmap list_fmap first_occurrences]. simpl.
  fold (dict_set_all (dict_set k v d) kvs). rewrite IH, dict_keys_set.
  by case_decide.
Qed.

Lemma dict_set_wf k v d : dict_wf d → dict_wf (dict_set k v d).
Proof.
  unfold dict_wf. rewrite dict_keys_set. case_decide; [done|].
  intros Hnd. apply NoDup_app. split; [done|]. split; [set_solver|].
  apply NoDup_singleton.
Qed.

(** A property of every entry survives an assignment of an entry that has
    it. *)
Lemma dict_set_Forall (P : K * V → Prop) k v d :
  Forall P d → P (k, v) → Forall P (dict_set k v d).
Proof.
  induction d as [|[k' v'] d IH]; intros Hd Hkv; simpl; [by constructor|].
  apply Forall_cons in Hd as [Hk' Hd]. case_decide; subst; constructor; auto.
Qed.

Lemma dict_set_elem_of k v d item : item ∈ dict_set k v d → item = (k, v) ∨ item ∈ d.
Proof.
  induction d as [|[k' v'] d IH]; simpl; [set_solver|].
  case_decide; subst; rewrite !elem_of_cons; [naive_solver|].
  intros [->|Hin]; [by right; left|]. destruct (IH Hin); [by left|by right; right].
Qed.

Lemma dict_get_elem_of k v d : dict_wf d → (k, v) ∈ d → dict_get k d = Some v.
Proof.
  unfold dict_wf, dict_keys. induction d as [|[k' v'] d IH]; intros Hnd Hin;
    [by apply not_elem_of_nil in Hin|].
  rewrite fmap_cons in Hnd. apply NoDup_cons in Hnd as [Hnot Hnd]. simpl.
  apply elem_of_cons in Hin as [[= -> ->]|Hin]; [by rewrite decide_True|].
  rewrite decide_False; [by apply IH|].
  intros ->. apply Hnot. apply list_elem_of_fmap. by exists (k', v).
Qed.

Section to_map.
Context `{Countable K}.

(** The abstract view of a dict: a finite map. *)
Definition dict_to_map (d : pydict K V) : gmap K V := list_to_map d.

Lemma dict_to_map_lookup d k : dict_wf d → dict_to_map d !! k = dict_get k d.
Proof.
  unfold dict_wf, dict_keys, dict_to_map.
  induction d as [|[k' v'] d IH]; intros Hnd; simpl; [done|].
  apply NoDup_cons in Hnd as [Hnot Hnd].
  case_decide as Hk.
  - subst k'. by rewrite lookup_insert_eq.
  - rewrite lookup_insert_ne by done. by apply IH.
Qed.

(** [len(d)] is the number of keys of the map. *)
Lemma dict_to_map_size d : dict_wf d → size (dict_to_map d) = length d.
Proof. apply map_size_list_to_map. Qed.

(** Refinement: on well-formed dicts, [d[k] = v] is [insert]. *)
Lemma dict_to_map_set k v d :
  dict_wf d → dict_to_map (dict_set k v d) = <[k:=v]> (dict_to_map d).
Proof.
  intros Hwf. apply map_eq. intros k2.
  rewrite dict_to_map_lookup by (by apply dict_set_wf).
  destruct (decide (k = k2)) as [<-|Hne].
  - by rewrite dict_get_set_eq, lookup_insert_eq.
  - rewrite dict_get_set_ne, lookup_insert_ne by done.
    by rewrite dict_to_map_lookup.
Qed.

End to_map.
End pydict.

