(* ===== verification/Runtime.v ===== *)
(** * Runtime: the environment, exceptions, log and state of [src/sif.py]

    - [OS] is the interface between the script and the machine: the
      operating-system name test (line 69), [os.path.exists] and
      [os.path.isfile] through [os_kind] (lines 79, 83, 122-123), the
      entries of [os.scandir] in enumeration order (line 90) together with
      what reading each of them yields, whether listing a directory is
      permitted ([os.scandir] raises [PermissionError], an [OSError],
      otherwise), [requests.get] (line 165), whether
      a path can be opened for writing (line 175), and the line read by
      [input()] (line 149).  The scanner and fetcher are proved for every
      instance of the class.
    - [exn] are the Python exceptions that can occur; [SystemExit] is
      raised by [sys.exit].
    - [event] is one printed line: which message and with which data.
    - [state] is the script's mutable data: the [icons] dict, the printed
      lines, the [errors] counter, the URLs requested and the files
      written. *)

From S2P Require Import Prelude PyDict.

Set Warnings "-clear-no-such-hyp".

(** ** Exceptions *)

Inductive exn : Type :=
  | SystemExit (code : Z)          (** [sys.exit(code)] *)
  | TypeError                      (** wrong call or operand types *)
  | OSError                        (** [open] / [read] / [write] failure *)
  | UnicodeDecodeError             (** text-mode read of undecodable bytes *)
  | NotADirectoryError             (** [os.scandir] on a non-directory *)
  | RequestException               (** [requests.get] connection failure *)
  | EOFError.                      (** [input()] at end of file *)

(** [except Exception] catches everything but [SystemExit]. *)
Definition is_Exception (e : exn) : bool :=
  match e with SystemExit _ => false | _ => true end.

(** ** The environment *)

Inductive kind : Type := KFile | KDir | KOther.

Inductive read_result : Type :=
  | ReadOk (raw : text)          (** the decoded characters, before newline translation *)
  | ReadFail (e : exn).

Record dir_entry : Type := DirEntry {
  de_name : string;
  de_is_file : bool;             (** [DirEntry.is_file()] *)
  de_read : read_result          (** [open(entry, "r").read()] *)
}.

Inductive http_result : Type :=
  | HttpResponse (status : Z) (body : list Byte.byte)
  | HttpFail.                   (** [requests.get] raised a [RequestException] *)

Class OS : Type := {
  os_is_nt : bool;                       (** [os.name == "nt"] *)
  os_kind : string → option kind;        (** [None]: the path does not exist *)
  os_scandir : string → list dir_entry;
  os_listable : string → bool;           (** [false]: [os.scandir] raises [PermissionError] *)
  os_get : string → http_result;
  os_writable : string → bool;
  os_input : option string               (** [None]: end of input *)
}.

(** [os.path.exists] and [os.path.isfile] *)
Definition path_exists `{OS} (p : string) : bool := bool_decide (is_Some (os_kind p)).
Definition path_isfile `{OS} (p : string) : bool :=
  match os_kind p with Some KFile => true | _ => false end.

(** ** The icon record (lines 58-63) *)

Record Icon : Type := MkIcon { steamid : string; path : string; name : string }.

#[export] Instance Icon_eq_dec : EqDecision Icon.
Proof. solve_decision. Defined.

(** ** Printed lines *)

Inductive event : Type :=
  | EvLicense                               (** line 66 *)
  | EvNotWindows                            (** line 70 *)
  | EvUsage                                 (** line 74 *)
  | EvDoesNotExist (p : string)             (** line 80 *)
  | EvIsAFile (p : string)                  (** line 84 *)
  | EvSearching (p : string)                (** line 88 *)
  | EvNotValidShortcut (file : string)      (** line 105 *)
  | EvNotSteamShortcut (file : string)      (** line 114 *)
  | EvIconIsDirectory (file : string)       (** line 124 *)
  | EvIconPresent (file : string)           (** line 127 *)
  | EvIconMissing (file : string)           (** line 132 *)
  | EvCouldNotOpen (file : string)          (** line 134 *)
  | EvBlank                                 (** lines 138, 151 *)
  | EvNoIcons                               (** line 142 *)
  | EvFound (n : nat)                       (** line 146 *)
  | EvPrompt                                (** line 147 *)
  | EvCancelled                             (** line 154 *)
  | EvDownloading (n : nat)                 (** line 158 *)
  | EvWriteFailed (id : string)             (** line 178 *)
  | EvSaved (id : string)                   (** line 182 *)
  | EvCompleted (errors : nat).             (** line 184 *)

#[export] Instance event_eq_dec : EqDecision event.
Proof. solve_decision. Defined.

(** The shortcut file a line of the scan reports on. *)
Definition event_file (ev : event) : option string :=
  match ev with
  | EvNotValidShortcut f | EvNotSteamShortcut f | EvIconIsDirectory f
  | EvIconPresent f | EvIconMissing f | EvCouldNotOpen f => Some f
  | _ => None
  end.

(** ** Program state *)

Record state : Type := MkState {
  icons : pydict string Icon;
  out : list event;
  errors : nat;
  requests : list string;
  written : list (string * list Byte.byte)
}.

Definition init_state : state := MkState [] [] 0 [] [].

Abbreviation py := (stm exn state).

Definition print (e : event) : py unit :=
  modify (λ st, MkState (icons st) (out st ++ [e]) (errors st) (requests st) (written st)).

Definition set_icon (k : string) (ic : Icon) : py unit :=
  modify (λ st, MkState (dict_set k ic (icons st)) (out st) (errors st) (requests st) (written st)).

Definition set_errors (n : nat) : py unit :=
  modify (λ st, MkState (icons st) (out st) n (requests st) (written st)).

Definition log_request (url : string) : py unit :=
  modify (λ st, MkState (icons st) (out st) (errors st) (requests st ++ [url]) (written st)).

Definition log_write (p : string) (body : list Byte.byte) : py unit :=
  modify (λ st, MkState (icons st) (out st) (errors st) (requests st) (written st ++ [(p, body)])).

Definition get_state : py state := λ st, (Normal st, st).

(** [sys.exit(code)] *)
Definition sys_exit {A} (code : Z) : py A := throw (SystemExit code).

(** The process exit status of a run that ended with [o]: an uncaught
    exception other than [SystemExit] exits with status 1. *)
Definition exit_status {A} (o : outcome exn A) : Z :=
  match o with
  | Normal _ => 0
  | Raised (SystemExit c) => c
  | Raised _ => 1
  end.

Lemma path_exists_false `{OS} p : path_exists p = false ↔ os_kind p = None.
Proof.
  unfold path_exists. rewrite bool_decide_eq_false.
  destruct (os_kind p); [split; [by intros []; eauto|done]|].
  split; [done|]. by intros _ [].
Qed.

(** The state after printing [evs]. *)
Definition printed (st : state) (evs : list event) : state :=
  MkState (icons st) (out st ++ evs) (errors st) (requests st) (written st).

Lemma print_printed e st : print e st = (Normal (), printed st [e]).
Proof. done. Qed.

Lemma printed_printed st l1 l2 : printed (printed st l1) l2 = printed st (l1 ++ l2).
Proof. unfold printed. simpl. by rewrite app_assoc. Qed.


Lemma exit_status_exception {A} e : is_Exception e = true → exit_status (A:=A) (Raised e) = 1%Z.
Proof. by destruct e. Qed.
