(* ===== verification/Scanner.v ===== *)
(** * Scanner: lines 87-136 of [src/sif.py]

    [classify] is the body of the [with] block (lines 102-131) as a pure
    function of the file contents and the file system: it returns the
    [verdict] the code reaches, each verdict being one of the code's exits
    ([continue] after a print, or the assignment to [icons]).
    [scan_entry] is one iteration of the [for] loop of line 90, with the
    two filters of lines 92-96, the text-mode read, the printed line, the
    dict assignment and the [except] handler of lines 133-136.  [scan] is
    the loop.

    The handler calls [error.with_traceback()] without its required
    traceback argument, which raises [TypeError] inside the handler: the
    model raises it, after the line of line 134 has been printed.

    Theorems: the verdicts in terms of the direct scanning functions of
    [Regex], and for a shortcut as Steam writes it ([steam_text]); the
    effect of one iteration on every branch; the dict invariants (unique
    keys, well-formed records) kept even when the loop aborts; the
    refinement of the whole loop to the spec's "Steam id to repair record"
    map when every shortcut can be read, with the exact dict
    ([scan_dict]), its key order and one printed line per shortcut file;
    and the abort of the loop at the first unreadable shortcut. *)

From S2P Require Import Prelude Hoare PyText Regex PyDict Runtime.

Set Warnings "-clear-no-such-hyp".

#[export] Hint Resolve dict_set_wf : sif.

Module Scanner.

(** The outcome of lines 102-131 for one readable shortcut. *)
Inductive verdict : Type :=
  | VInvalid                 (** no header: line 105 *)
  | VNotSteam                (** a field is missing: line 114 *)
  | VIconDir                 (** the icon path exists, not a file: line 124 *)
  | VIconPresent             (** the icon file exists: line 127 *)
  | VMissing (ic : Icon).    (** queued: lines 131-132 *)

Section with_os.
Context {os : OS}.

Definition classify (contents : text) : verdict :=
  match re_search pat_header contents with
  | None => VInvalid
  | Some _ =>
      match re_search pat_steamid contents, re_search pat_iconpath contents,
            re_search pat_iconname contents with
      | Some steamidmatch, Some iconpathmatch, Some iconnamematch =>
          let sid := untxt (group1 contents steamidmatch) in
          let iconpath := untxt (group1 contents iconpathmatch) in
          let iconname := untxt (group1 contents iconnamematch) in
          if path_exists iconpath then
            if negb (path_isfile iconpath) then VIconDir else VIconPresent
          else VMissing (MkIcon sid iconpath iconname)
      | _, _, _ => VNotSteam
      end
  end.

(** One iteration of the loop of line 90. *)
Definition scan_entry (entry : dir_entry) : py unit :=
  let fname := de_name entry in
  if negb (de_is_file entry) then mret ()
  else if negb (py_endswith (txt fname) ⟪".url"⟫) then mret ()
  else
    match de_read entry with
    | ReadFail err =>
        if is_Exception err then
          print (EvCouldNotOpen fname) ;;
          throw TypeError   (* error.with_traceback() lacks its argument *)
        else throw err
    | ReadOk raw =>
        match classify (universal_newlines raw) with
        | VInvalid => print (EvNotValidShortcut fname)
        | VNotSteam => print (EvNotSteamShortcut fname)
        | VIconDir => print (EvIconIsDirectory fname)
        | VIconPresent => print (EvIconPresent fname)
        | VMissing ic =>
            set_icon (steamid ic) ic ;;
            print (EvIconMissing fname)
        end
    end.

(** [os.scandir(searchpath)] *)
Definition py_scandir (searchpath : string) : py (list dir_entry) :=
  match os_kind searchpath with
  | Some KDir =>
      if os_listable searchpath then mret (os_scandir searchpath)
      else throw OSError   (* PermissionError, a subclass of OSError *)
  | _ => throw NotADirectoryError
  end.

(** Lines 90-136. *)
Definition scan (searchpath : string) : py unit :=
  entries ← py_scandir searchpath;
  mfor entries scan_entry.

(** ** Classification *)

Definition shortcut_header : text := ⟪"[InternetShortcut]"⟫ ++ [LF].

Lemma re_search_header_contains c :
  is_Some (re_search pat_header c) ↔ contains shortcut_header c = true.
Proof.
  rewrite re_search_header_spec_core, contains_spec. unfold shortcut_header.
  by setoid_rewrite <-app_assoc.
Qed.

(** The classification computed with the regular-expression engine is
    the classification computed with the direct scanning functions. *)
Lemma classify_eq c :
  classify c =
  if contains shortcut_header c then
    match field_value ⟪"rungameid/"⟫ c, field_value ⟪"IconFile="⟫ c, last_segment c with
    | Some sid, Some ip, Some nm =>
        if path_exists (untxt ip) then
          if negb (path_isfile (untxt ip)) then VIconDir else VIconPresent
        else VMissing (MkIcon (untxt sid) (untxt ip) (untxt nm))
    | _, _, _ => VNotSteam
    end
  else VInvalid.
Proof.
  unfold classify.
  rewrite <-!re_search_field_value_core, <-re_search_last_segment_core.
  pose proof (re_search_header_contains c) as Hh.
  destruct (re_search pat_header c); destruct (contains shortcut_header c).
  2: { assert (false = true) by (apply Hh; eauto). done. }
  2: { assert (is_Some (@None match_obj)) as [? ?] by (by apply Hh). done. }
  2: done.
  unfold pat_steamid, pat_iconpath.
  destruct (re_search (field_pat _) c), (re_search (field_pat _) c),
    (re_search pat_iconname c); done.
Qed.

(** The verdict for a shortcut whose three fields are found. *)
Lemma classify_fields_core c sid ip nm :
  contains shortcut_header c = true →
  field_value ⟪"rungameid/"⟫ c = Some sid →
  field_value ⟪"IconFile="⟫ c = Some ip →
  last_segment c = Some nm →
  classify c = match os_kind (untxt ip) with
               | None => VMissing (MkIcon (untxt sid) (untxt ip) (untxt nm))
               | Some KFile => VIconPresent
               | Some _ => VIconDir
               end.
Proof.
  intros Hh Hs Hp Hn. rewrite classify_eq, Hh, Hs, Hp, Hn.
  unfold path_exists, path_isfile.
  destruct (os_kind (untxt ip)) as [[]|]; done.
Qed.

(** C4: For a shortcut with the header and all three fields found,
    classification depends only on the icon path on disk: missing gives a
    repair record (id, path, name), a regular file gives icon-present,
    anything else (directory) gives icon-directory-conflict. *)
Theorem classify_fields c sid ip nm :
  contains shortcut_header c = true →
  field_value ⟪"rungameid/"⟫ c = Some sid →
  field_value ⟪"IconFile="⟫ c = Some ip →
  last_segment c = Some nm →
  classify c = match os_kind (untxt ip) with
               | None => VMissing (MkIcon (untxt sid) (untxt ip) (untxt nm))
               | Some KFile => VIconPresent
               | Some _ => VIconDir
               end.
Proof. apply classify_fields_core. Qed.

(** A shortcut is classified invalid-format exactly when its contents
    do not contain the [InternetShortcut] header followed by a newline. *)
Theorem classify_invalid c :
  classify c = VInvalid ↔ contains shortcut_header c = false.
Proof.
  rewrite classify_eq. destruct (contains shortcut_header c); [|done].
  split; [|done].
  destruct (field_value ⟪"rungameid/"⟫ c), (field_value ⟪"IconFile="⟫ c), (last_segment c); try done.
  by repeat case_match.
Qed.

(** A shortcut is classified not-a-Steam-shortcut exactly when it has
    the header but one of the Steam id, icon path or icon name searches
    fails. *)
Theorem classify_not_steam c :
  classify c = VNotSteam ↔
  contains shortcut_header c = true ∧
  (field_value ⟪"rungameid/"⟫ c = None ∨ field_value ⟪"IconFile="⟫ c = None ∨
   last_segment c = None).
Proof.
  rewrite classify_eq. destruct (contains shortcut_header c); [|split; [done|by intros [? _]]].
  destruct (field_value ⟪"rungameid/"⟫ c), (field_value ⟪"IconFile="⟫ c), (last_segment c);
    try (split; [by intros; split; auto|done]).
  split; [by repeat case_match|]. by intros [_ [|[|]]].
Qed.

(** ** The spec's view of one directory entry *)

(** Whether the entry passes the filters of lines 92-96. *)
Definition is_shortcut_file (e : dir_entry) : bool :=
  de_is_file e && py_endswith (txt (de_name e)) ⟪".url"⟫.

(** The repair record the entry contributes, if any. *)
Definition queued (e : dir_entry) : option Icon :=
  if is_shortcut_file e then
    match de_read e with
    | ReadOk raw => match classify (universal_newlines raw) with
                    | VMissing ic => Some ic
                    | _ => None
                    end
    | ReadFail _ => None
    end
  else None.

(** The line the loop prints for the entry, if any: one per shortcut
    file, saying which exit of lines 102-136 was taken. *)
Definition scan_line (e : dir_entry) : option event :=
  if is_shortcut_file e then
    match de_read e with
    | ReadOk raw =>
        Some (match classify (universal_newlines raw) with
              | VInvalid => EvNotValidShortcut (de_name e)
              | VNotSteam => EvNotSteamShortcut (de_name e)
              | VIconDir => EvIconIsDirectory (de_name e)
              | VIconPresent => EvIconPresent (de_name e)
              | VMissing _ => EvIconMissing (de_name e)
              end)
    | ReadFail _ => Some (EvCouldNotOpen (de_name e))
    end
  else None.

(** A record of the dict is stored under its own Steam id, and its three
    fields are pieces of one line: no line feed and no carriage return. *)
Definition record_ok (item : string * Icon) : Prop :=
  item.1 = steamid item.2 ∧
  Forall (λ f, (CR ∉ txt f) ∧ (LF ∉ txt f)) [steamid item.2; path item.2; name item.2].

Definition readable (e : dir_entry) : Prop :=
  is_shortcut_file e = true → ∃ raw, de_read e = ReadOk raw.

Definition readableb (e : dir_entry) : bool :=
  negb (is_shortcut_file e) || match de_read e with ReadOk _ => true | ReadFail _ => false end.

Lemma all_readable es : forallb readableb es = true → ∀ e, e ∈ es → readable e.
Proof.
  intros H e He Hs. pose proof (forallb_elem_of _ _ H e He) as Hb.
  unfold readableb in Hb. rewrite Hs in Hb. simpl in Hb.
  destruct (de_read e); [eauto|done].
Qed.

(** The spec's "Steam id to repair record" mapping, one entry at a
    time: later records overwrite earlier ones. *)
Definition repair_step (m : gmap string Icon) (e : dir_entry) : gmap string Icon :=
  match queued e with Some ic => <[steamid ic := ic]> m | None => m end.

(** ** One iteration *)

Lemma scan_entry_readable e st :
  readable e →
  ∃ st', scan_entry e st = (Normal (), st') ∧
         icons st' = (match queued e with
                      | Some ic => dict_set (steamid ic) ic (icons st)
                      | None => icons st
                      end) ∧
         errors st' = errors st ∧ requests st' = requests st ∧ written st' = written st ∧
         out st' = out st ++ option_list (scan_line e).
Proof.
  unfold readable, queued, scan_line, is_shortcut_file, scan_entry.
  destruct (de_is_file e); simpl; [|eexists; by rewrite app_nil_r].
  destruct (py_endswith _ _); simpl; [|eexists; by rewrite app_nil_r].
  intros Hr. destruct (Hr eq_refl) as [raw ->].
  unfold print, set_icon, modify; unfold_stm.
  destruct (classify _); by eexists.
Qed.

(** An unreadable shortcut: the handler prints line 134 and then raises
    [TypeError] from [error.with_traceback()]. *)
Lemma scan_entry_read_fail e err st :
  is_shortcut_file e = true → de_read e = ReadFail err → is_Exception err = true →
  scan_entry e st =
    (Raised TypeError,
     MkState (icons st) (out st ++ [EvCouldNotOpen (de_name e)]) (errors st)
             (requests st) (written st)).
Proof.
  unfold is_shortcut_file, scan_entry. intros Hs Hr He.
  apply andb_true_iff in Hs as [-> ->]. simpl. rewrite Hr, He. done.
Qed.

Lemma scan_entry_icons e st o st' :
  scan_entry e st = (o, st') →
  (icons st' = icons st ∨ ∃ k ic, icons st' = dict_set k ic (icons st)) ∧
  errors st' = errors st ∧ requests st' = requests st ∧ written st' = written st.
Proof.
  unfold scan_entry, print, set_icon, modify; unfold_stm.
  destruct (de_is_file e), (py_endswith _ _); simpl;
    try (intros [= <- <-]; split; [by left|done]).
  destruct (de_read e) as [raw|err].
  - destruct (classify _); intros [= <- <-]; (split; [|done]); [left..|right]; eauto.
  - destruct (is_Exception err); intros [= <- <-]; (split; [by left|done]).
Qed.

(** The scan touches nothing but [icons] and the printed lines. *)
Lemma scan_entries_frame es st o st' :
  mfor es scan_entry st = (o, st') →
  errors st' = errors st ∧ requests st' = requests st ∧ written st' = written st.
Proof.
  apply (mfor_invariant (λ s, errors s = errors st ∧ requests s = requests st ∧
                              written s = written st)); [|done].
  intros e s o' s' _ (He & Hr & Hw) E.
  destruct (scan_entry_icons _ _ _ _ E) as (_ & ? & ? & ?). split_and!; congruence.
Qed.

(** The fields of a queued record are made of characters of one line of
    the contents. *)
Lemma classify_missing_chars c ic :
  classify c = VMissing ic →
  Forall (λ f, ∀ x, x ∈ txt f → x ∈ c ∧ x ≠ LF) [steamid ic; path ic; name ic].
Proof.
  rewrite classify_eq. destruct (contains shortcut_header c); [|done].
  destruct (field_value ⟪"rungameid/"⟫ c) as [sid|] eqn:Hs,
    (field_value ⟪"IconFile="⟫ c) as [ip|] eqn:Hp, (last_segment c) as [nm|] eqn:Hn; try done.
  destruct (path_exists _); [by case_match|]. intros [= <-].
  rewrite !Forall_cons. cbn [steamid path name].
  split_and!; [..|constructor]; intros x; rewrite txt_untxt;
    [eapply field_value_chars|eapply field_value_chars|eapply last_segment_chars]; eauto.
Qed.

(** One iteration keeps every record of the dict well formed. *)
Lemma scan_entry_records e st o st' :
  Forall record_ok (icons st) → scan_entry e st = (o, st') → Forall record_ok (icons st').
Proof.
  intros Hall. unfold scan_entry, print, set_icon, modify; unfold_stm.
  destruct (de_is_file e), (py_endswith _ _); simpl; try (intros [= <- <-]; done).
  destruct (de_read e) as [raw|err]; [|destruct (is_Exception err); by intros [= <- <-]].
  destruct (classify _) as [| | | |ic] eqn:Ecl; intros [= <- <-]; simpl; try done.
  apply dict_set_Forall; [done|]. split; [done|].
  apply classify_missing_chars in Ecl. eapply Forall_impl; [exact Ecl|].
  intros f Hf. split; intros Hx; destruct (Hf _ Hx) as [Hin Hne]; [|done].
  by apply (universal_newlines_no_CR raw).
Qed.

(** ** The loop *)

(** The dict keeps unique keys whatever happens, including when the
    loop aborts. *)
Lemma scan_entries_wf es st o st' :
  dict_wf (icons st) → mfor es scan_entry st = (o, st') → dict_wf (icons st').
Proof.
  apply (mfor_invariant (λ st, dict_wf (icons st))). intros e s o' s' _ Hs E.
  destruct (scan_entry_icons _ _ _ _ E) as [[->|(k & ic & ->)] _]; auto with sif.
Qed.

(** C17: Every record the dict holds after the scan loop, whether the loop
    completes or aborts, is stored under its own Steam id, and its id, path
    and name contain no line feed and no carriage return (text-mode reading
    removed the carriage returns). *)
Theorem scan_records_ok es st o st' :
  Forall record_ok (icons st) → mfor es scan_entry st = (o, st') → Forall record_ok (icons st').
Proof.
  apply (mfor_invariant (λ st, Forall record_ok (icons st))). intros e s o' s' _ Hs E.
  by eapply scan_entry_records.
Qed.

(** Refinement: when every shortcut can be read, the loop completes and
    the [icons] dict, seen as a finite map, is the spec's mapping built
    by overwriting with each queued record in enumeration order. *)
Lemma scan_refines_core es st :
  (∀ e, e ∈ es → readable e) → dict_wf (icons st) →
  ∃ st', mfor es scan_entry st = (Normal (), st') ∧ dict_wf (icons st') ∧
         dict_to_map (icons st') = foldl repair_step (dict_to_map (icons st)) es.
Proof.
  revert st. induction es as [|e es IH]; intros st Hr Hwf; simpl.
  - by eexists.
  - destruct (scan_entry_readable e st) as (st1 & E & Hi & _); [set_solver|].
    unfold_stm. rewrite E.
    assert (dict_wf (icons st1)) as Hwf1.
    { rewrite Hi. destruct (queued e); auto with sif. }
    destruct (IH st1) as (st' & Hrun & Hwf' & Hmap); [set_solver|done|].
    exists st'. split_and!; [done|done|]. rewrite Hmap, Hi. f_equal.
    unfold repair_step. destruct (queued e); [|done]. by apply dict_to_map_set.
Qed.

(** C3: When every .url file of the directory can be read, the scan loop
    completes, keeps the dict's keys unique, and the icons dict seen as a
    gmap is the spec's mapping obtained by inserting each queued repair
    record in enumeration order. *)
Theorem scan_refines es st :
  (∀ e, e ∈ es → readable e) → dict_wf (icons st) →
  ∃ st', mfor es scan_entry st = (Normal (), st') ∧ dict_wf (icons st') ∧
         dict_to_map (icons st') = foldl repair_step (dict_to_map (icons st)) es.
Proof. apply scan_refines_core. Qed.

(** A loop over readable entries completes, and prints one line per
    shortcut file, in enumeration order. *)
Lemma scan_entries_readable es st :
  (∀ e, e ∈ es → readable e) →
  ∃ st', mfor es scan_entry st = (Normal (), st') ∧ out st' = out st ++ omap scan_line es.
Proof.
  revert st. induction es as [|e es IH]; intros st Hr; simpl; [eexists; by rewrite app_nil_r|].
  destruct (scan_entry_readable e st) as (st1 & E & _ & _ & _ & _ & Ho); [set_solver|].
  unfold_stm. rewrite E. destruct (IH st1) as (st' & H1 & H2); [set_solver|].
  exists st'. split; [done|]. rewrite H2, Ho, <-app_assoc. by destruct (scan_line e).
Qed.

Lemma scan_line_files es :
  map event_file (omap scan_line es) = map (λ e, Some (de_name e)) (filter is_shortcut_file es).
Proof.
  induction es as [|e es IH]; [done|]. rewrite filter_cons. simpl.
  assert (option_map event_file (scan_line e) =
          if is_shortcut_file e then Some (Some (de_name e)) else None) as Hl.
  { unfold scan_line. destruct (is_shortcut_file e); [|done].
    destruct (de_read e); [destruct (classify _)|]; done. }
  destruct (scan_line e), (is_shortcut_file e); simplify_eq/=; congruence.
Qed.

(** C18: When every .url file can be read, the scan loop prints one line per
    regular file whose name ends in .url, naming it, in enumeration order,
    and no line for any other entry. *)
Theorem scan_one_line_per_shortcut es st :
  (∀ e, e ∈ es → readable e) →
  ∃ st' lines, mfor es scan_entry st = (Normal (), st') ∧ out st' = out st ++ lines ∧
         map event_file lines = map (λ e, Some (de_name e)) (filter is_shortcut_file es).
Proof.
  intros Hr. destruct (scan_entries_readable es st Hr) as (st' & H1 & H2).
  exists st', (omap scan_line es). split_and!; [done..|]. apply scan_line_files.
Qed.

(** When every shortcut can be read, the loop's dict is the one obtained by
    assigning the queued records in enumeration order. *)
Lemma scan_dict es st :
  (∀ e, e ∈ es → readable e) →
  ∃ st', mfor es scan_entry st = (Normal (), st') ∧
         icons st' = dict_set_all (icons st) ((λ ic, (steamid ic, ic)) <$> omap queued es).
Proof.
  revert st. induction es as [|e es IH]; intros st Hr; simpl; [by eexists|].
  destruct (scan_entry_readable e st) as (st1 & E & Hi & _); [set_solver|].
  unfold_stm. rewrite E. destruct (IH st1) as (st' & H1 & H2); [set_solver|].
  exists st'. split; [done|]. rewrite H2, Hi. by destruct (queued e).
Qed.

(** C16: When every .url file can be read, the keys of the dict after the
    scan, which fix the order of the downloads, are the queued Steam ids in
    the order in which the directory listing first queues them; a later
    shortcut for the same id replaces the record without moving it. *)
Theorem scan_key_order es st :
  (∀ e, e ∈ es → readable e) → icons st = [] →
  ∃ st', mfor es scan_entry st = (Normal (), st') ∧
         dict_keys (icons st') = first_occurrences [] (steamid <$> omap queued es).
Proof.
  intros Hr Hi. destruct (scan_dict es st Hr) as (st' & H1 & H2).
  exists st'. split; [done|]. rewrite H2, dict_set_all_keys, Hi.
  by rewrite <-list_fmap_compose.
Qed.

(** An unreadable shortcut aborts the scan: the entries after it are not
    examined and the run ends with [TypeError]. *)
Lemma scan_aborts_core es1 e es2 err st :
  (∀ e', e' ∈ es1 → readable e') →
  is_shortcut_file e = true → de_read e = ReadFail err → is_Exception err = true →
  ∃ st1, mfor es1 scan_entry st = (Normal (), st1) ∧
         mfor (es1 ++ e :: es2) scan_entry st =
           (Raised TypeError,
            MkState (icons st1) (out st1 ++ [EvCouldNotOpen (de_name e)]) (errors st1)
                    (requests st1) (written st1)).
Proof.
  intros Hr Hs Hd He. destruct (scan_entries_readable es1 st Hr) as (st1 & H1 & _).
  exists st1. split; [done|]. rewrite mfor_app, (stm_bind_normal _ _ _ _ _ H1).
  cbn [mfor]. by rewrite (stm_bind_raised _ _ _ _ _ (scan_entry_read_fail e err st1 Hs Hd He)).
Qed.

(** C22: At the first unreadable .url file the scan loop raises TypeError
    after printing the could-not-open line; the entries after it are never
    examined. *)
Theorem scan_aborts es1 e es2 err st :
  (∀ e', e' ∈ es1 → readable e') →
  is_shortcut_file e = true → de_read e = ReadFail err → is_Exception err = true →
  ∃ st1, mfor es1 scan_entry st = (Normal (), st1) ∧
         mfor (es1 ++ e :: es2) scan_entry st =
           (Raised TypeError,
            MkState (icons st1) (out st1 ++ [EvCouldNotOpen (de_name e)]) (errors st1)
                    (requests st1) (written st1)).
Proof. apply scan_aborts_core. Qed.

Lemma foldl_repair_lookup es m k :
  foldl repair_step m es !! k =
  match last (filter (λ ic, steamid ic = k) (omap queued es)) with
  | Some ic => Some ic
  | None => m !! k
  end.
Proof.
  induction es as [|e es IH] using rev_ind; [done|].
  rewrite foldl_snoc, omap_app, filter_app, last_app.
  remember (foldl repair_step m es) as M eqn:HM. unfold repair_step. simpl.
  destruct (queued e) as [ic|]; simpl; [|done].
  rewrite filter_cons, filter_nil. case_decide as Hk; simpl.
  - subst k. by rewrite lookup_insert_eq.
  - by rewrite lookup_insert_ne.
Qed.

(** Last scanned wins: after a scan from an empty dict, the record of a
    Steam id is the last record queued for it in enumeration order. *)
Lemma scan_last_wins_core es st :
  (∀ e, e ∈ es → readable e) → icons st = [] →
  ∃ st', mfor es scan_entry st = (Normal (), st') ∧
         ∀ k, dict_get k (icons st') = last (filter (λ ic, steamid ic = k) (omap queued es)).
Proof.
  intros Hr Hempty.
  destruct (scan_refines_core es st Hr) as (st' & Hrun & Hwf & Hmap);
    [rewrite Hempty; constructor|].
  exists st'. split; [done|]. intros k.
  rewrite <-dict_to_map_lookup by done. rewrite Hmap, foldl_repair_lookup, Hempty.
  by destruct (last _).
Qed.

(** C15: After a scan from an empty dict, the record stored for a Steam id
    is the last record queued for that id in directory enumeration order
    (last scanned wins). *)
Theorem scan_last_wins es st :
  (∀ e, e ∈ es → readable e) → icons st = [] →
  ∃ st', mfor es scan_entry st = (Normal (), st') ∧
         ∀ k, dict_get k (icons st') = last (filter (λ ic, steamid ic = k) (omap queued es)).
Proof. apply scan_last_wins_core. Qed.

(** Every entry of the dict after a scan from an empty dict is a queued
    record under its own Steam id; an id that was queued has an entry. *)
Lemma scan_icons_queued es st st' :
  (∀ e, e ∈ es → readable e) → icons st = [] → mfor es scan_entry st = (Normal (), st') →
  (∀ item, item ∈ icons st' → ∃ ic, item = (steamid ic, ic) ∧ ic ∈ omap queued es) ∧
  (∀ ic, ic ∈ omap queued es → is_Some (dict_get (steamid ic) (icons st'))).
Proof.
  intros Hr Hempty Hrun.
  destruct (scan_last_wins_core es st Hr Hempty) as (st1 & Hrun1 & Hget).
  rewrite Hrun in Hrun1. injection Hrun1 as <-.
  assert (dict_wf (icons st')) as Hwf
    by (apply (scan_entries_wf es st (Normal ()) st'); [rewrite Hempty; constructor|done]).
  split.
  - intros [k ic] Hin. apply (dict_get_elem_of k ic) in Hin; [|done].
    rewrite Hget in Hin. apply last_Some_elem_of, list_elem_of_filter in Hin as [<- Hin].
    eauto.
  - intros ic Hin. rewrite Hget. destruct (last _) eqn:E; [done|].
    apply last_None, (filter_nil_not_elem_of _ _ ic) in E; [done..|].
    done.
Qed.

(** A shortcut whose reading fails ends the loop with an exception, so a
    scan that completes has read every shortcut. *)
Lemma scan_entry_normal_readable e st st' : scan_entry e st = (Normal (), st') → readable e.
Proof.
  unfold scan_entry, readable, is_shortcut_file. intros H Hs. apply andb_true_iff in Hs as [H1 H2].
  rewrite H1, H2 in H. simpl in H. destruct (de_read e) as [raw|err]; [by eauto|].
  unfold print, modify, throw in H; unfold_stm. by destruct (is_Exception err).
Qed.

Lemma scan_normal_readable es st st' :
  mfor es scan_entry st = (Normal (), st') → ∀ e, e ∈ es → readable e.
Proof.
  revert st. induction es as [|x es IH]; intros st H e He; [by apply not_elem_of_nil in He|].
  cbn [mfor] in H. apply stm_bind_normal_inv in H as ([] & s1 & H1 & H2).
  apply elem_of_cons in He as [-> | He]; [by eapply scan_entry_normal_readable|by eapply IH].
Qed.

(** ** Shortcuts as Steam writes them *)

Definition digits : text := ⟪"0123456789"⟫.

(** The lines Steam writes before the Steam id of a game shortcut. *)
Definition steam_pre : text := ⟪"[{000214A0-0000-0000-C000-000000000046}]
Prop3=19,0
[InternetShortcut]
IDList=
IconIndex=0
URL=steam://"⟫.

(** The shortcut of game [id] with icon [icon], with ["\n"] line ends. *)
Definition steam_text (id icon : text) : text :=
  steam_pre ++ ⟪"rungameid/"⟫ ++ id ++ LF :: ⟪"IconFile="⟫ ++ icon ++ [LF].

Lemma digits_compute id : forallb (λ c, bool_decide (c ∈ digits)) id = true → ∀ c, c ∈ id → c ∈ digits.
Proof. intros H c Hc. exact (bool_decide_eq_true_1 _ (forallb_elem_of _ _ H c Hc)). Qed.

Lemma digits_not_in (k : text) c :
  forallb (λ d, bool_decide (d ∉ k)) digits = true → c ∈ digits → c ∉ k.
Proof. intros H Hc. exact (bool_decide_eq_true_1 _ (forallb_elem_of _ _ H c Hc)). Qed.

Ltac digits_absurd :=
  match goal with
  | Hid : ∀ c, c ∈ ?id → c ∈ digits, Hin : ?x ∈ ?id |- _ =>
      exact (digits_not_in [x] x eq_refl (Hid x Hin) ltac:(left))
  end.

(** What the three searches and the header test find in a Steam shortcut
    with a decimal id and a Windows icon path. *)
Lemma steam_text_fields id dir base :
  (∀ c, c ∈ id → c ∈ digits) → LF ∉ dir → LF ∉ base → BSL ∉ base →
  let c := steam_text id (dir ++ BSL :: base) in
  contains shortcut_header c = true ∧
  field_value ⟪"rungameid/"⟫ c = Some id ∧
  field_value ⟪"IconFile="⟫ c = Some (dir ++ BSL :: base) ∧
  last_segment c = Some base.
Proof.
  intros Hid Hd Hb Hbb c.
  assert (LF ∉ id) as Hlf by (intros Hin; digits_absurd).
  assert (c = (steam_pre ++ ⟪"rungameid/"⟫ ++ id ++ [LF]) ++ ⟪"IconFile="⟫ ++
                (dir ++ BSL :: base) ++ LF :: []) as Hc
    by (unfold c, steam_text; by rewrite <-!app_assoc).
  split_and!.
  - apply contains_app_r. vm_compute. reflexivity.
  - apply field_value_at; [done|vm_compute; reflexivity].
  - rewrite Hc. apply field_value_first.
    + apply not_elem_of_compute. vm_compute. reflexivity.
    + rewrite elem_of_app, elem_of_cons. intros [?|[?|?]]; [done| |done].
      exact (bool_decide_eq_false_1 (LF = BSL) eq_refl ltac:(done)).
    + right. by rewrite !app_assoc, last_snoc.
    + intros a b Hp.
      destruct (occurrence_in_prefix (steam_pre ++ ⟪"rungameid/"⟫) (id ++ [LF]) ⟪"IconFile="⟫ a b)
        as [b' Hb']; [done| |by rewrite <-app_assoc|].
      { intros x Hx. apply elem_of_app in Hx as [Hx|Hx].
        - apply (digits_not_in ⟪"IconFile="⟫ x eq_refl), Hid, Hx.
        - apply list_elem_of_singleton in Hx as ->.
          apply not_elem_of_compute. vm_compute. reflexivity. }
      assert (contains ⟪"IconFile="⟫ (steam_pre ++ ⟪"rungameid/"⟫) = true) as Hcon
        by (apply contains_spec; eauto).
      vm_compute in Hcon. discriminate.
  - rewrite Hc, <-(app_assoc dir). apply last_segment_basename; [|done..].
    assert (BSL ∉ steam_pre ++ ⟪"rungameid/"⟫) as Hpre
      by (apply not_elem_of_compute; vm_compute; reflexivity).
    rewrite app_assoc. intros Hx. apply elem_of_app in Hx as [Hx|Hx]; [done|].
    apply elem_of_app in Hx as [Hx|Hx%list_elem_of_singleton].
    + apply (digits_not_in [BSL] BSL eq_refl (Hid _ Hx)). left.
    + exact (bool_decide_eq_false_1 (BSL = LF) eq_refl Hx).
Qed.

(** The Steam shortcut holds no carriage return before it is written with
    CRLF line ends. *)
Lemma steam_text_no_CR id dir base :
  (∀ c, c ∈ id → c ∈ digits) → CR ∉ dir → CR ∉ base →
  CR ∉ steam_text id (dir ++ BSL :: base).
Proof.
  intros Hid Hd Hb Hx. unfold steam_text in Hx.
  repeat (apply elem_of_app in Hx as [Hx|Hx] || apply elem_of_cons in Hx as [Hx|Hx]);
    try done; try (revert Hx; apply not_elem_of_compute; vm_compute; reflexivity);
    try digits_absurd; by apply list_elem_of_singleton in Hx.
Qed.

(** C11: A shortcut as Steam writes it (CRLF line ends, a decimal Steam id,
    a Windows icon path dir\base) is read and classified from the icon path
    on disk: when the icon is missing, the repair record holds the Steam id,
    the full icon path and its file name base. *)
Theorem classify_steam_shortcut id dir base :
  (∀ c, c ∈ id → c ∈ digits) → LF ∉ dir → CR ∉ dir → LF ∉ base → CR ∉ base → BSL ∉ base →
  classify (universal_newlines (crlf_encode (steam_text id (dir ++ BSL :: base)))) =
  match os_kind (untxt (dir ++ BSL :: base)) with
  | None => VMissing (MkIcon (untxt id) (untxt (dir ++ BSL :: base)) (untxt base))
  | Some KFile => VIconPresent
  | Some _ => VIconDir
  end.
Proof.
  intros Hid Hd Hcd Hb Hcb Hbb.
  rewrite universal_newlines_crlf_encode by (by apply steam_text_no_CR).
  destruct (steam_text_fields id dir base Hid Hd Hb Hbb) as (H1 & H2 & H3 & H4).
  by apply classify_fields_core.
Qed.

End with_os.

(** ** A concrete desktop folder *)

(** A Steam shortcut as Steam writes it, with Windows line ends. *)
Definition steam_shortcut (id icon : string) : text := crlf_encode (steam_text ⟪id⟫ ⟪icon⟫).

Definition dota_ico : string := "C:\Steam\games\dota.ico".
Definition dota_ico2 : string := "C:\Steam\games\dota2.ico".
Definition tf2_ico : string := "C:\Steam\games\tf2.ico".
Definition csgo_ico : string := "C:\Steam\games\csgo.ico".
Definition desktop : string := "C:\Desktop".

Definition demo_entries : list dir_entry := [
  DirEntry "Dota 2.url" true (ReadOk (steam_shortcut "570" dota_ico));
  DirEntry "notes.txt" true (ReadOk ⟪"hello"⟫);
  DirEntry "Team Fortress 2.url" true (ReadOk (steam_shortcut "440" tf2_ico));
  DirEntry "CSGO.url" true (ReadOk (steam_shortcut "730" csgo_ico));
  DirEntry "broken.url" true (ReadOk ⟪"URL=steam://rungameid/1"⟫);
  DirEntry "Games.url" false (ReadFail OSError);
  DirEntry "Dota 2 (copy).url" true (ReadOk (steam_shortcut "570" dota_ico2))
].

Definition demo_os : OS := {|
  os_is_nt := true;
  os_kind := λ p, if bool_decide (p = tf2_ico) then Some KFile
                  else if bool_decide (p = csgo_ico) then Some KDir
                  else if bool_decide (p = desktop) then Some KDir
                  else None;
  os_scandir := λ _, demo_entries;
  os_listable := λ _, true;
  os_get := λ _, HttpResponse 200 [];
  os_writable := λ _, true;
  os_input := Some "y"
|}.

Definition locked_entry : dir_entry := DirEntry "locked.url" true (ReadFail OSError).

(** ** Witnesses *)

Lemma classify_fields_witness :
  classify (os := demo_os) (universal_newlines (steam_shortcut "570" dota_ico)) =
  VMissing (MkIcon "570" dota_ico "dota.ico").
Proof.
  rewrite (classify_fields (os := demo_os) _ ⟪"570"⟫ ⟪dota_ico⟫ ⟪"dota.ico"⟫);
    [reflexivity | vm_compute; reflexivity ..].
Defined.

Lemma classify_steam_shortcut_witness :
  classify (os := demo_os)
    (universal_newlines (crlf_encode (steam_text ⟪"570"⟫ (⟪"C:\Steam\games"⟫ ++ BSL :: ⟪"dota.ico"⟫)))) =
  VMissing (MkIcon "570" dota_ico "dota.ico").
Proof.
  rewrite (classify_steam_shortcut (os := demo_os));
    [reflexivity
    | apply digits_compute; reflexivity
    | apply not_elem_of_compute; vm_compute; reflexivity ..].
Defined.

Lemma scan_one_line_per_shortcut_witness :
  ∃ st' lines, mfor demo_entries (scan_entry (os := demo_os)) init_state = (Normal (), st') ∧
         out st' = out init_state ++ lines ∧
         map event_file lines = map (λ e, Some (de_name e)) (filter is_shortcut_file demo_entries).
Proof. apply (scan_one_line_per_shortcut (os := demo_os)). apply all_readable; reflexivity. Defined.

Lemma scan_key_order_witness :
  ∃ st', mfor demo_entries (scan_entry (os := demo_os)) init_state = (Normal (), st') ∧
         dict_keys (icons st') =
           first_occurrences [] (steamid <$> omap (queued (os := demo_os)) demo_entries).
Proof. apply (scan_key_order (os := demo_os)); [apply all_readable; reflexivity | reflexivity]. Defined.

Lemma scan_records_ok_witness :
  Forall record_ok (icons (mfor demo_entries (scan_entry (os := demo_os)) init_state).2).
Proof.
  apply (scan_records_ok (os := demo_os) demo_entries init_state
           (mfor demo_entries (scan_entry (os := demo_os)) init_state).1); [constructor|].
  apply surjective_pairing.
Defined.

Lemma scan_refines_witness :
  ∃ st', mfor demo_entries (scan_entry (os := demo_os)) init_state = (Normal (), st') ∧
         dict_wf (icons st') ∧
         dict_to_map (icons st') = foldl (repair_step (os := demo_os)) ∅ demo_entries.
Proof. apply (scan_refines (os := demo_os)); [apply all_readable; reflexivity | constructor]. Defined.

Lemma scan_last_wins_witness :
  ∃ st', mfor demo_entries (scan_entry (os := demo_os)) init_state = (Normal (), st') ∧
         ∀ k, dict_get k (icons st') =
              last (filter (λ ic, steamid ic = k) (omap (queued (os := demo_os)) demo_entries)).
Proof. apply (scan_last_wins (os := demo_os)); [apply all_readable; reflexivity | reflexivity]. Defined.

Lemma scan_aborts_witness :
  ∃ st1, mfor (take 2 demo_entries) (scan_entry (os := demo_os)) init_state = (Normal (), st1) ∧
         mfor (take 2 demo_entries ++ locked_entry :: drop 2 demo_entries)
           (scan_entry (os := demo_os)) init_state =
         (Raised TypeError,
          MkState (icons st1) (out st1 ++ [EvCouldNotOpen "locked.url"]) (errors st1)
                  (requests st1) (written st1)).
Proof.
  apply (scan_aborts (os := demo_os) _ locked_entry _ OSError);
    [apply all_readable; reflexivity | reflexivity ..].
Defined.

End Scanner.
