(* ===== verification/Fetcher.v ===== *)
(** * Fetcher: lines 157-184 of [src/sif.py]

    [fetch_one] is one iteration of the download loop of line 162 over
    [icons.items()]: build the URL (line 164), call [requests.get] (line
    165), test [response.ok] (line 168), open the icon path for writing and
    write the body (lines 174-176), or count a write failure (lines
    177-180).  [fetch_all] is lines 158-184.

    On a response that is not ok, line 169 evaluates
    [steamid + ": ... was " + response.status_code + "."], which adds a
    [str] and the [int] status code: Python raises [TypeError] before
    anything is printed or counted.  The model raises it.

    [response_ok] is [requests.Response.ok]: [raise_for_status()] raises
    for the statuses 400 to 599 only.  A connection failure of
    [requests.get] is the exception [RequestException], which nothing
    catches.

    Theorems: each branch of one iteration; a refinement of the loop,
    when every response is ok, to the spec's contract (one request per
    record in dict order, the writable icons written, one error per failed
    write, one printed line per record, [fetch_line]); the abort on the
    first response that is not ok. *)

From S2P Require Import Prelude PyDict Runtime.

Set Warnings "-clear-no-such-hyp".

Module Fetcher.

Definition baseurl : string :=
  "https://steamcdn-a.akamaihd.net/steamcommunity/public/images/apps/".

(** [baseurl + steamid + "/" + icon.name] *)
Definition icon_url (sid : string) (ic : Icon) : string :=
  baseurl +:+ sid +:+ "/" +:+ name ic.

(** [requests.Response.ok] *)
Definition response_ok (status : Z) : bool :=
  negb ((400 <=? status)%Z && (status <? 600)%Z).

Section with_os.
Context {os : OS}.

(** [errors = errors + 1] *)
Definition incr_errors : py unit :=
  st ← get_state;
  set_errors (S (errors st)).

(** One iteration of the loop of line 162. *)
Definition fetch_one (item : string * Icon) : py unit :=
  let '(sid, ic) := item in
  let url := icon_url sid ic in
  log_request url ;;
  match os_get url with
  | HttpFail => throw RequestException
  | HttpResponse status body =>
      if negb (response_ok status) then
        throw TypeError   (* str + int while building the message of line 169 *)
      else if os_writable (path ic) then
        log_write (path ic) body ;;
        print (EvSaved sid)
      else
        print (EvWriteFailed sid) ;;
        incr_errors
  end.

(** Lines 158-184. *)
Definition fetch_all : py unit :=
  st ← get_state;
  print (EvDownloading (length (icons st))) ;;
  set_errors 0 ;;
  mfor (icons st) fetch_one ;;
  st' ← get_state;
  print (EvCompleted (errors st')).

(** ** The spec's contract (spec 4.2) *)

(** Per record: one GET; a response that is not a success is a
    [download-failed] and counts one error; otherwise the body is written,
    and a write failure counts one error.  The state is the error count and
    the files written. *)
Definition spec_fetch_step (acc : nat * list (string * list Byte.byte)) (item : string * Icon)
    : nat * list (string * list Byte.byte) :=
  let '(n, ws) := acc in
  let '(sid, ic) := item in
  match os_get (icon_url sid ic) with
  | HttpResponse status body =>
      if response_ok status then
        if os_writable (path ic) then (n, ws ++ [(path ic, body)]) else (S n, ws)
      else (S n, ws)
  | HttpFail => (S n, ws)
  end.

Definition spec_fetch (items : list (string * Icon)) : nat * list (string * list Byte.byte) :=
  foldl spec_fetch_step (0, []) items.

(** The server answers the request of [item] with a success status. *)
Definition served (item : string * Icon) : bool :=
  match os_get (icon_url item.1 item.2) with
  | HttpResponse status _ => response_ok status
  | HttpFail => false
  end.

(** The line printed for a served record (lines 178 and 182). *)
Definition fetch_line (item : string * Icon) : event :=
  if os_writable (path item.2) then EvSaved item.1 else EvWriteFailed item.1.

(** ** One iteration *)

Lemma fetch_one_not_ok sid ic status body st :
  os_get (icon_url sid ic) = HttpResponse status body → response_ok status = false →
  fetch_one (sid, ic) st =
    (Raised TypeError,
     MkState (icons st) (out st) (errors st) (requests st ++ [icon_url sid ic]) (written st)).
Proof.
  intros Hget Hok. unfold fetch_one, log_request, modify; unfold_stm. simpl.
  rewrite Hget, Hok. done.
Qed.

Lemma fetch_one_served item st :
  served item = true →
  ∃ st', fetch_one item st = (Normal (), st') ∧
         (errors st', written st') = spec_fetch_step (errors st, written st) item ∧
         requests st' = requests st ++ [icon_url item.1 item.2] ∧
         icons st' = icons st ∧ out st' = out st ++ [fetch_line item].
Proof.
  destruct item as [sid ic]. unfold served. simpl.
  unfold fetch_one, fetch_line, spec_fetch_step, incr_errors, get_state, log_request, log_write,
    print, set_errors, modify; unfold_stm. simpl.
  destruct (os_get (icon_url sid ic)) as [status body|]; [|done].
  intros Hok. rewrite Hok. simpl.
  destruct (os_writable (path ic)); by eexists.
Qed.

(** ** The loop *)

(** Refinement: when every record is served, the loop completes, requests
    each record's URL in dict order, and its error count and writes are
    those of the spec's contract. *)
Lemma fetch_loop_refines_core items st :
  (∀ item, item ∈ items → served item = true) →
  ∃ st', mfor items fetch_one st = (Normal (), st') ∧
         (errors st', written st') = foldl spec_fetch_step (errors st, written st) items ∧
         requests st' = requests st ++ map (λ item, icon_url item.1 item.2) items ∧
         icons st' = icons st ∧ out st' = out st ++ map fetch_line items.
Proof.
  revert st. induction items as [|item items IH]; intros st Hs; simpl.
  - exists st. by rewrite !app_nil_r.
  - destruct (fetch_one_served item st) as (st1 & E & Hacc & Hreq & Hic & Ho); [set_solver|].
    destruct (IH st1) as (st' & Hrun & Hacc' & Hreq' & Hic' & Ho'); [set_solver|].
    exists st'. unfold_stm. rewrite E.
    split_and!; [done| |by rewrite Hreq', Hreq, <-app_assoc|congruence|by rewrite Ho', Ho, <-app_assoc].
    by rewrite Hacc', Hacc.
Qed.

(** C14: When every record is served, the download loop completes, requests
    each record's URL in dict order, prints one saved or write-failed line
    per record, leaves the dict unchanged, and its error count and written
    files are those of the spec's per-record contract (one error per failed
    write). *)
Theorem fetch_loop_refines items st :
  (∀ item, item ∈ items → served item = true) →
  ∃ st', mfor items fetch_one st = (Normal (), st') ∧
         (errors st', written st') = foldl spec_fetch_step (errors st, written st) items ∧
         requests st' = requests st ++ map (λ item, icon_url item.1 item.2) items ∧
         icons st' = icons st ∧ out st' = out st ++ map fetch_line items.
Proof. apply fetch_loop_refines_core. Qed.

(** C23: A response that is not ok aborts the download loop with TypeError:
    the records after it are never requested and nothing more is written. *)
Theorem fetch_loop_aborts items1 sid ic items2 status body st :
  (∀ item, item ∈ items1 → served item = true) →
  os_get (icon_url sid ic) = HttpResponse status body → response_ok status = false →
  ∃ st1, mfor items1 fetch_one st = (Normal (), st1) ∧
         mfor (items1 ++ (sid, ic) :: items2) fetch_one st =
           (Raised TypeError,
            MkState (icons st1) (out st1) (errors st1)
                    (requests st1 ++ [icon_url sid ic]) (written st1)).
Proof.
  intros Hs Hget Hok. destruct (fetch_loop_refines_core items1 st Hs) as (st1 & H1 & _).
  exists st1. split; [done|]. rewrite mfor_app, (stm_bind_normal _ _ _ _ _ H1).
  cbn [mfor]. by rewrite (stm_bind_raised _ _ _ _ _ (fetch_one_not_ok sid ic status body st1 Hget Hok)).
Qed.

Lemma spec_fetch_errors_le items n ws :
  (foldl spec_fetch_step (n, ws) items).1 ≤ n + length items.
Proof.
  revert n ws. induction items as [|[sid ic] items IH]; intros n ws; simpl; [lia|].
  destruct (os_get (icon_url sid ic)) as [status body|];
    [destruct (response_ok status), (os_writable (path ic))|];
    (etransitivity; [apply IH|]); lia.
Qed.

(** Lines 158-184 when every record is served: the run completes, its
    error count and writes are the spec's, one request goes out per record
    in dict order, and the final line reports the error count, which is at
    most the number of records. *)
Lemma fetch_all_refines_core st :
  (∀ item, item ∈ icons st → served item = true) → written st = [] →
  ∃ st', fetch_all st = (Normal (), st') ∧
         (errors st', written st') = spec_fetch (icons st) ∧
         requests st' = requests st ++ map (λ item, icon_url item.1 item.2) (icons st) ∧
         errors st' ≤ length (icons st) ∧
         out st' = out st ++ EvDownloading (length (icons st)) :: map fetch_line (icons st) ++
                   [EvCompleted (errors st')] ∧
         icons st' = icons st.
Proof.
  intros Hs Hw. unfold fetch_all, get_state, print, set_errors, modify; unfold_stm.
  cbn -[mfor].
  destruct (fetch_loop_refines_core (icons st)
    (MkState (icons st) (out st ++ [EvDownloading (length (icons st))]) 0 (requests st)
       (written st)) Hs) as (st' & Hrun & Hacc & Hreq & Hic & Ho).
  rewrite Hrun. eexists. split; [reflexivity|]. simpl.
  unfold spec_fetch. rewrite <-Hw. simpl in Hacc, Hreq, Ho. rewrite <-Hacc.
  split_and!; [done|done| |by rewrite Ho, <-!app_assoc|done].
  pose proof (spec_fetch_errors_le (icons st) 0 (written st)) as Hle.
  rewrite <-Hacc in Hle. simpl in Hle. lia.
Qed.

(** C24: When every record is served, lines 158-184 complete with the spec's
    error count and writes, one request per record, an error count at most
    the number of records, the printed lines Downloading n, one line per
    record and the completion line, and the dict unchanged. *)
Theorem fetch_all_refines st :
  (∀ item, item ∈ icons st → served item = true) → written st = [] →
  ∃ st', fetch_all st = (Normal (), st') ∧
         (errors st', written st') = spec_fetch (icons st) ∧
         requests st' = requests st ++ map (λ item, icon_url item.1 item.2) (icons st) ∧
         errors st' ≤ length (icons st) ∧
         out st' = out st ++ EvDownloading (length (icons st)) :: map fetch_line (icons st) ++
                   [EvCompleted (errors st')] ∧
         icons st' = icons st.
Proof. apply fetch_all_refines_core. Qed.

Lemma fetch_one_unserved item st :
  served item = false → ∃ e st', fetch_one item st = (Raised e, st') ∧ is_Exception e = true.
Proof.
  destruct item as [sid ic]. unfold served, fetch_one, log_request, modify; unfold_stm. simpl.
  destruct (os_get (icon_url sid ic)) as [status body|]; intros Hs; [rewrite Hs|]; eauto.
Qed.

(** A record that is not served makes the loop raise an exception (not
    [SystemExit]): the process exits with status 1. *)
Lemma fetch_loop_unserved items st :
  (∃ item, item ∈ items ∧ served item = false) →
  ∃ e st', mfor items fetch_one st = (Raised e, st') ∧ is_Exception e = true.
Proof.
  intros (item & Hin & Hs). revert st. induction items as [|item' items IH]; intros st;
    [by apply not_elem_of_nil in Hin|].
  cbn [mfor]. unfold_stm. destruct (served item') eqn:E'.
  - destruct (fetch_one_served item' st E') as (st1 & -> & _).
    apply elem_of_cons in Hin as [->|Hin]; [congruence|]. by apply IH.
  - by destruct (fetch_one_unserved item' st E') as (e & st1 & -> & He); eauto.
Qed.

Lemma fetch_all_unserved st :
  (∃ item, item ∈ icons st ∧ served item = false) →
  ∃ e st', fetch_all st = (Raised e, st') ∧ is_Exception e = true.
Proof.
  intros Hex. unfold fetch_all, get_state, print, set_errors, modify; unfold_stm. cbn -[mfor].
  destruct (fetch_loop_unserved (icons st)
    (MkState (icons st) (out st ++ [EvDownloading (length (icons st))]) 0 (requests st)
       (written st)) Hex) as (e & st' & -> & He).
  eauto.
Qed.

End with_os.

(** ** A concrete server for the witnesses *)

Definition dota : Icon := MkIcon "570" "C:\Steam\games\dota.ico" "dota.ico".
Definition csgo : Icon := MkIcon "730" "C:\ReadOnly\csgo.ico" "csgo.ico".
Definition tf2 : Icon := MkIcon "440" "C:\Steam\games\tf2.ico" "tf2.ico".

Definition cdn_os : OS := {|
  os_is_nt := true;
  os_kind := λ p, if bool_decide (p = "C:\Desktop") then Some KDir else None;
  os_scandir := λ _, [];
  os_listable := λ _, true;
  os_get := λ url, if bool_decide (url = icon_url "440" tf2) then HttpResponse 404 []
                   else HttpResponse 200 [Byte.x89; Byte.x50; Byte.x4e; Byte.x47];
  os_writable := λ p, negb (bool_decide (p = "C:\ReadOnly\csgo.ico"));
  os_input := Some "y"
|}.

Definition demo_items : list (string * Icon) := [("570", dota); ("730", csgo)].

Lemma fetch_loop_refines_witness :
  ∃ st', mfor demo_items (fetch_one (os := cdn_os)) init_state = (Normal (), st') ∧
         (errors st', written st') = foldl (spec_fetch_step (os := cdn_os)) (0, []) demo_items ∧
         requests st' = [] ++ map (λ item, icon_url item.1 item.2) demo_items ∧
         icons st' = [] ∧ out st' = [] ++ map (fetch_line (os := cdn_os)) demo_items.
Proof. apply (fetch_loop_refines (os := cdn_os) demo_items init_state). apply forallb_elem_of; reflexivity. Defined.

Lemma fetch_loop_aborts_witness :
  ∃ st1, mfor demo_items (fetch_one (os := cdn_os)) init_state = (Normal (), st1) ∧
         mfor (demo_items ++ ("440", tf2) :: []) (fetch_one (os := cdn_os)) init_state =
           (Raised TypeError,
            MkState (icons st1) (out st1) (errors st1)
                    (requests st1 ++ [icon_url "440" tf2]) (written st1)).
Proof.
  apply (fetch_loop_aborts (os := cdn_os) demo_items "440" tf2 [] 404 []);
    [apply forallb_elem_of; reflexivity | reflexivity ..].
Defined.

Lemma fetch_all_refines_witness :
  ∃ st', fetch_all (os := cdn_os) (MkState demo_items [] 0 [] []) = (Normal (), st') ∧
         (errors st', written st') = spec_fetch (os := cdn_os) demo_items ∧
         requests st' = [] ++ map (λ item, icon_url item.1 item.2) demo_items ∧
         errors st' ≤ length demo_items ∧
         out st' = [] ++ EvDownloading (length demo_items) ::
                   map (fetch_line (os := cdn_os)) demo_items ++ [EvCompleted (errors st')] ∧
         icons st' = demo_items.
Proof.
  apply (fetch_all_refines (os := cdn_os) (MkState demo_items [] 0 [] []));
    [apply forallb_elem_of; reflexivity | reflexivity].
Defined.

End Fetcher.
