(* ===== verification/Program.v ===== *)
(** * Program: the whole script [src/sif.py] (lines 65-184)

    The statements of the script's top level are grouped into the phases
    they form in the source, each a definition: [startup] (lines 65-85:
    licence, OS warning, argument checks with their [sys.exit] calls),
    the scan (lines 87-136, [Scanner.scan]), [confirm] (lines 140-155: the
    empty-result exit and the y/N prompt) and the download
    ([Fetcher.fetch_all], lines 157-184).  [main] runs them in sequence;
    the exit status of a run is [exit_status] of its outcome.

    Theorems: the exit status and output for each startup condition, for
    an empty scan, for a declined prompt and for end of input at the
    prompt; the end-to-end behaviour of a run that downloads (exit status
    0 whatever the number of failed writes) and its complete printed log;
    and the abort of a run (exit status 1) on a directory that may not be
    listed, on an unreadable shortcut or on a download that is refused or
    fails to connect.  The witnesses run the script on [desk_os], a
    Windows desktop holding Steam shortcuts, and on [denied_os], whose
    desktop may not be listed. *)

From S2P Require Import Prelude PyText Regex PyDict Runtime Scanner Fetcher.

Set Warnings "-clear-no-such-hyp".

Module Program.

Section with_os.
Context {os : OS}.

(** [input()] *)
Definition py_input : py string :=
  match os_input with Some line => mret line | None => throw EOFError end.

(** Lines 65-85; returns [searchpath]. *)
Definition startup (argv : list string) : py string :=
  print EvLicense ;;
  (if negb os_is_nt then print EvNotWindows else mret ()) ;;
  (if length argv <? 2 then (print EvUsage ;; sys_exit 0) else mret ()) ;;
  let searchpath := nth 1 argv "" in
  (if negb (path_exists searchpath) then (print (EvDoesNotExist searchpath) ;; sys_exit 1)
   else mret ()) ;;
  (if path_isfile searchpath then (print (EvIsAFile searchpath) ;; sys_exit 2) else mret ()) ;;
  mret searchpath.

(** Lines 140-155. *)
Definition confirm : py unit :=
  st ← get_state;
  (if length (icons st) <? 1 then (print EvNoIcons ;; sys_exit 0) else mret ()) ;;
  print (EvFound (length (icons st))) ;;
  print EvPrompt ;;
  choice ← py_input;
  print EvBlank ;;
  (if negb (bool_decide (py_lower (txt choice) = ⟪"y"⟫)) then (print EvCancelled ;; sys_exit 0)
   else mret ()).

(** Lines 65-184. *)
Definition main (argv : list string) : py unit :=
  searchpath ← startup argv;
  print (EvSearching searchpath) ;;
  Scanner.scan searchpath ;;
  print EvBlank ;;
  confirm ;;
  Fetcher.fetch_all.

(** The lines printed before the argument checks. *)
Definition banner : list event := EvLicense :: (if os_is_nt then [] else [EvNotWindows]).

(** Evaluate the printing prefix of a phase. *)
Ltac run_prints :=
  unfold startup, banner, sys_exit, throw, print, modify, printed; unfold_stm; simpl.

(** ** Startup *)

Lemma startup_usage argv st :
  length argv < 2 →
  startup argv st = (Raised (SystemExit 0), printed st (banner ++ [EvUsage])).
Proof.
  intros Hlen. apply Nat.ltb_lt in Hlen.
  run_prints; destruct os_is_nt; rewrite Hlen; simpl; rewrite <-?app_assoc; reflexivity.
Qed.

Lemma startup_missing argv st :
  2 ≤ length argv → os_kind (nth 1 argv "") = None →
  startup argv st =
    (Raised (SystemExit 1), printed st (banner ++ [EvDoesNotExist (nth 1 argv "")])).
Proof.
  intros Hlen Hk. apply Nat.ltb_ge in Hlen. apply path_exists_false in Hk.
  run_prints; destruct os_is_nt; rewrite Hlen; simpl; rewrite Hk; simpl;
    rewrite <-?app_assoc; reflexivity.
Qed.

Lemma startup_file argv st :
  2 ≤ length argv → os_kind (nth 1 argv "") = Some KFile →
  startup argv st =
    (Raised (SystemExit 2), printed st (banner ++ [EvIsAFile (nth 1 argv "")])).
Proof.
  intros Hlen Hk. apply Nat.ltb_ge in Hlen.
  assert (path_exists (nth 1 argv "") = true) as He
    by (unfold path_exists; rewrite Hk; by apply bool_decide_eq_true).
  assert (path_isfile (nth 1 argv "") = true) as Hf by (unfold path_isfile; by rewrite Hk).
  run_prints; destruct os_is_nt; rewrite Hlen; simpl; rewrite He, Hf; simpl;
    rewrite <-?app_assoc; reflexivity.
Qed.

Lemma startup_dir argv st :
  2 ≤ length argv → os_kind (nth 1 argv "") = Some KDir →
  startup argv st = (Normal (nth 1 argv ""), printed st banner).
Proof.
  intros Hlen Hk. apply Nat.ltb_ge in Hlen.
  assert (path_exists (nth 1 argv "") = true) as He
    by (unfold path_exists; rewrite Hk; by apply bool_decide_eq_true).
  assert (path_isfile (nth 1 argv "") = false) as Hf by (unfold path_isfile; by rewrite Hk).
  run_prints; destruct os_is_nt; rewrite Hlen; simpl; rewrite He, Hf; simpl;
    rewrite <-?app_assoc, ?app_nil_r; reflexivity.
Qed.

(** ** Confirmation *)

Lemma confirm_no_icons st :
  icons st = [] → confirm st = (Raised (SystemExit 0), printed st [EvNoIcons]).
Proof.
  destruct st as [ics o e r w]. simpl. intros ->. reflexivity.
Qed.

Lemma confirm_answer st c :
  icons st ≠ [] → os_input = Some c →
  confirm st =
    if bool_decide (py_lower (txt c) = ⟪"y"⟫) then
      (Normal (), printed st [EvFound (length (icons st)); EvPrompt; EvBlank])
    else
      (Raised (SystemExit 0),
       printed st [EvFound (length (icons st)); EvPrompt; EvBlank; EvCancelled]).
Proof.
  destruct st as [ics o e r w]. simpl. intros Hi Hc.
  unfold confirm, get_state, py_input, sys_exit, throw, print, modify, printed; unfold_stm.
  simpl. destruct ics as [|item items]; [done|]. simpl. rewrite Hc. simpl.
  case_bool_decide; simpl; rewrite <-?app_assoc; reflexivity.
Qed.

Lemma confirm_eof st :
  icons st ≠ [] → os_input = None →
  confirm st = (Raised EOFError, printed st [EvFound (length (icons st)); EvPrompt]).
Proof.
  destruct st as [ics o e r w]. simpl. intros Hi Hc.
  unfold confirm, get_state, py_input, throw, print, modify, printed; unfold_stm.
  simpl. destruct ics as [|item items]; [done|]. simpl. rewrite Hc. simpl.
  by rewrite <-app_assoc.
Qed.

(** ** Composition *)

(** After a successful startup on a directory, the run is the loop over
    the directory's entries followed by the rest of the script. *)
Lemma main_on_dir argv st :
  2 ≤ length argv → os_kind (nth 1 argv "") = Some KDir → os_listable (nth 1 argv "") = true →
  main argv st =
    (mfor (os_scandir (nth 1 argv "")) Scanner.scan_entry ;;
     print EvBlank ;; confirm ;; Fetcher.fetch_all)
      (printed st (banner ++ [EvSearching (nth 1 argv "")])).
Proof.
  intros Hlen Hk Hl. unfold main.
  rewrite (stm_bind_normal _ _ _ _ _ (startup_dir argv st Hlen Hk)).
  rewrite (stm_bind_normal _ _ _ _ _ (print_printed _ _)), printed_printed.
  unfold Scanner.scan. rewrite stm_bind_assoc.
  set (s0 := printed st (banner ++ [EvSearching (nth 1 argv "")])).
  assert (Scanner.py_scandir (nth 1 argv "") s0 = (Normal (os_scandir (nth 1 argv "")), s0))
    as Hs by (unfold Scanner.py_scandir; by rewrite Hk, Hl).
  by rewrite (stm_bind_normal _ _ _ _ _ Hs).
Qed.

(** ** Runs of the whole script *)

(** C25: With fewer than two command-line arguments the script prints the
    licence (and OS warning) and the usage text and exits with status 0. *)
Theorem main_usage argv st :
  length argv < 2 →
  main argv st = (Raised (SystemExit 0), printed st (banner ++ [EvUsage])).
Proof. intros H. unfold main. by rewrite (stm_bind_raised _ _ _ _ _ (startup_usage argv st H)). Qed.

(** C26: If the target path does not exist the script prints the licence and
    the does-not-exist line and exits with status 1. *)
Theorem main_missing_path argv st :
  2 ≤ length argv → os_kind (nth 1 argv "") = None →
  main argv st =
    (Raised (SystemExit 1), printed st (banner ++ [EvDoesNotExist (nth 1 argv "")])).
Proof.
  intros H1 H2. unfold main. by rewrite (stm_bind_raised _ _ _ _ _ (startup_missing argv st H1 H2)).
Qed.

(** C27: If the target path is a regular file the script prints the licence
    and the is-a-file line and exits with status 2. *)
Theorem main_path_is_file argv st :
  2 ≤ length argv → os_kind (nth 1 argv "") = Some KFile →
  main argv st =
    (Raised (SystemExit 2), printed st (banner ++ [EvIsAFile (nth 1 argv "")])).
Proof.
  intros H1 H2. unfold main. by rewrite (stm_bind_raised _ _ _ _ _ (startup_file argv st H1 H2)).
Qed.

(** C28: If the target directory exists but may not be listed, os.scandir
    raises PermissionError (an OSError) that nothing catches: after the
    licence and the search line the run ends with exit status 1, before any
    shortcut is read. *)
Theorem main_unlistable argv st :
  2 ≤ length argv → os_kind (nth 1 argv "") = Some KDir → os_listable (nth 1 argv "") = false →
  main argv st =
    (Raised OSError, printed st (banner ++ [EvSearching (nth 1 argv "")])).
Proof.
  intros Hlen Hk Hl. unfold main.
  rewrite (stm_bind_normal _ _ _ _ _ (startup_dir argv st Hlen Hk)).
  rewrite (stm_bind_normal _ _ _ _ _ (print_printed _ _)), printed_printed.
  unfold Scanner.scan. rewrite stm_bind_assoc. apply stm_bind_raised.
  unfold Scanner.py_scandir. by rewrite Hk, Hl.
Qed.

Section on_dir.
Context (argv : list string).
Hypothesis (Hargc : 2 ≤ length argv).
Hypothesis (Hdir : os_kind (nth 1 argv "") = Some KDir).
Hypothesis (Hlist : os_listable (nth 1 argv "") = true).

(** The directory's entries, in enumeration order. *)
Definition entries : list dir_entry := os_scandir (nth 1 argv "").

(** The state after the startup lines and the "Searching" line. *)
Definition scan_start : state := printed init_state (banner ++ [EvSearching (nth 1 argv "")]).

Lemma scan_phase :
  (∀ e, e ∈ entries → Scanner.readable e) →
  ∃ st1, mfor entries Scanner.scan_entry scan_start = (Normal (), st1) ∧
         dict_wf (icons st1) ∧
         dict_to_map (icons st1) = foldl Scanner.repair_step ∅ entries ∧
         requests st1 = [] ∧ written st1 = [] ∧
         (∀ item, item ∈ icons st1 → ∃ ic, item = (steamid ic, ic) ∧ ic ∈ omap Scanner.queued entries) ∧
         (∀ ic, ic ∈ omap Scanner.queued entries → is_Some (dict_get (steamid ic) (icons st1))) ∧
         out st1 = out scan_start ++ omap Scanner.scan_line entries.
Proof.
  intros Hr. destruct (Scanner.scan_refines_core entries scan_start Hr) as (st1 & Hrun & Hwf & Hmap);
    [constructor|].
  destruct (Scanner.scan_entries_readable entries scan_start Hr) as (st2 & Hrun2 & Ho).
  rewrite Hrun in Hrun2. injection Hrun2 as <-.
  destruct (Scanner.scan_entries_frame _ _ _ _ Hrun) as (_ & Hreq & Hw).
  destruct (Scanner.scan_icons_queued entries scan_start st1 Hr eq_refl Hrun) as [Hq1 Hq2].
  exists st1. split_and!; done.
Qed.

(** After a scan that completes, the run is the blank line of line 138,
    the prompt and the download. *)
Lemma main_after_scan st1 :
  mfor entries Scanner.scan_entry scan_start = (Normal (), st1) →
  main argv init_state = (confirm ;; Fetcher.fetch_all) (printed st1 [EvBlank]).
Proof.
  intros Hrun. rewrite main_on_dir by done. fold entries scan_start.
  by rewrite (stm_bind_normal _ _ _ _ _ Hrun), (stm_bind_normal _ _ _ _ _ (print_printed _ _)).
Qed.

(** C29: A readable directory with no repairable shortcut ends with the no-
    icons line, exit status 0 and no network request. *)
Theorem main_no_icons :
  (∀ e, e ∈ entries → Scanner.readable e) → omap Scanner.queued entries = [] →
  exit_status (main argv init_state).1 = 0%Z ∧ requests (main argv init_state).2 = [] ∧
  last (out (main argv init_state).2) = Some EvNoIcons.
Proof.
  intros Hr Hq.
  destruct scan_phase as (st1 & Hrun & _ & _ & Hreq & _ & Hq1 & _ & _); [done|].
  assert (icons st1 = []) as Hi.
  { destruct (icons st1) as [|item items] eqn:E; [done|].
    destruct (Hq1 item) as (ic & _ & Hin); [rewrite ?E; left|].
    rewrite Hq in Hin. by apply not_elem_of_nil in Hin. }
  rewrite (main_after_scan st1 Hrun).
  rewrite (stm_bind_raised _ _ _ _ _ (confirm_no_icons (printed st1 [EvBlank]) Hi)).
  simpl. split_and!; [done|done|by rewrite last_snoc].
Qed.

Lemma queued_icons_nonempty st1 :
  (∀ ic, ic ∈ omap Scanner.queued entries → is_Some (dict_get (steamid ic) (icons st1))) →
  omap Scanner.queued entries ≠ [] → icons st1 ≠ [].
Proof.
  intros H Hne Hi. destruct (omap Scanner.queued entries) as [|ic l] eqn:E; [done|].
  destruct (H ic) as [v Hv]; [rewrite ?E; left|]. by rewrite Hi in Hv.
Qed.

(** C30: When icons are queued but the answer to the prompt is not y or Y,
    the script prints Cancelled, makes no request and exits with status 0. *)
Theorem main_declined c :
  (∀ e, e ∈ entries → Scanner.readable e) → omap Scanner.queued entries ≠ [] →
  os_input = Some c → py_lower (txt c) ≠ ⟪"y"⟫ →
  exit_status (main argv init_state).1 = 0%Z ∧ requests (main argv init_state).2 = [] ∧
  last (out (main argv init_state).2) = Some EvCancelled.
Proof.
  intros Hr Hq Hc Hy.
  destruct scan_phase as (st1 & Hrun & _ & _ & Hreq & _ & _ & Hq2 & _); [done|].
  pose proof (confirm_answer (printed st1 [EvBlank]) c
    (queued_icons_nonempty st1 Hq2 Hq) Hc) as Hconf.
  rewrite bool_decide_eq_false_2 in Hconf by done.
  rewrite (main_after_scan st1 Hrun), (stm_bind_raised _ _ _ _ _ Hconf).
  simpl. split_and!; [done|done|]. by rewrite last_app.
Qed.

(** The run that downloads, phase by phase: the scan, the prompt and the
    download loop over the dict the scan built. *)
Lemma download_run c :
  (∀ e, e ∈ entries → Scanner.readable e) → omap Scanner.queued entries ≠ [] →
  os_input = Some c → py_lower (txt c) = ⟪"y"⟫ →
  (∀ ic, ic ∈ omap Scanner.queued entries → Fetcher.served (steamid ic, ic) = true) →
  ∃ st1 st', main argv init_state = (Normal (), st') ∧
         mfor entries Scanner.scan_entry scan_start = (Normal (), st1) ∧
         dict_wf (icons st1) ∧
         dict_to_map (icons st1) = foldl Scanner.repair_step ∅ entries ∧
         out st1 = out scan_start ++ omap Scanner.scan_line entries ∧
         icons st' = icons st1 ∧
         (errors st', written st') = Fetcher.spec_fetch (icons st1) ∧
         requests st' = map (λ item, Fetcher.icon_url item.1 item.2) (icons st1) ∧
         out st' = out st1 ++ [EvBlank; EvFound (length (icons st1)); EvPrompt; EvBlank] ++
                   EvDownloading (length (icons st1)) :: map Fetcher.fetch_line (icons st1) ++
                   [EvCompleted (errors st')].
Proof.
  intros Hr Hq Hc Hy Hs.
  destruct scan_phase as (st1 & Hrun & Hwf & Hmap & Hreq & Hw & Hq1 & Hq2 & Ho1); [done|].
  pose proof (confirm_answer (printed st1 [EvBlank]) c
    (queued_icons_nonempty st1 Hq2 Hq) Hc) as Hconf.
  rewrite bool_decide_eq_true_2 in Hconf by done.
  rewrite (main_after_scan st1 Hrun), (stm_bind_normal _ _ _ _ _ Hconf), printed_printed.
  destruct (Fetcher.fetch_all_refines_core (printed st1 ([EvBlank] ++
      [EvFound (length (icons (printed st1 [EvBlank]))); EvPrompt; EvBlank])))
    as (st' & Hf & Hacc & Hreq' & _ & Hout & Hic).
  { intros item Hin. destruct (Hq1 item Hin) as (ic & -> & Hic). by apply Hs. }
  { done. }
  exists st1, st'. rewrite Hf. simpl in Hic, Hreq', Hacc, Hout.
  split_and!; [done..|by rewrite Hreq', Hreq|by rewrite Hout, <-!app_assoc].
Qed.

(** C31: If standard input is at end of file when the prompt asks for
    confirmation, input() raises EOFError: the run exits with status 1 and
    makes no request. *)
Theorem main_eof :
  (∀ e, e ∈ entries → Scanner.readable e) → omap Scanner.queued entries ≠ [] →
  os_input = None →
  (main argv init_state).1 = Raised EOFError ∧ exit_status (main argv init_state).1 = 1%Z ∧
  requests (main argv init_state).2 = [].
Proof.
  intros Hr Hq Hc.
  destruct scan_phase as (st1 & Hrun & _ & _ & Hreq & _ & _ & Hq2 & _); [done|].
  rewrite (main_after_scan st1 Hrun), (stm_bind_raised _ _ _ _ _
    (confirm_eof (printed st1 [EvBlank]) (queued_icons_nonempty st1 Hq2 Hq) Hc)).
  done.
Qed.

(** C1: A run on a directory of readable shortcuts where the user answers y
    and every queued icon is served ends normally (exit status 0); its icons
    dict is, as a map, the spec's last-scanned-wins mapping of the
    directory, it requests each dict entry's CDN URL once in dict order, its
    error count and written files are those of the spec's fetcher, and the
    last printed line reports the error count. *)
Theorem main_downloads c :
  (∀ e, e ∈ entries → Scanner.readable e) → omap Scanner.queued entries ≠ [] →
  os_input = Some c → py_lower (txt c) = ⟪"y"⟫ →
  (∀ ic, ic ∈ omap Scanner.queued entries → Fetcher.served (steamid ic, ic) = true) →
  ∃ st', main argv init_state = (Normal (), st') ∧
         dict_to_map (icons st') = foldl Scanner.repair_step ∅ entries ∧
         (errors st', written st') = Fetcher.spec_fetch (icons st') ∧
         requests st' = map (λ item, Fetcher.icon_url item.1 item.2) (icons st') ∧
         last (out st') = Some (EvCompleted (errors st')).
Proof.
  intros Hr Hq Hc Hy Hs.
  destruct (download_run c Hr Hq Hc Hy Hs)
    as (st1 & st' & Hmain & _ & _ & Hmap & _ & Hic & Hacc & Hreq & Hout).
  exists st'. rewrite Hic. split_and!; [done..|].
  by rewrite Hout, app_comm_cons, !app_assoc, last_snoc.
Qed.

(** C2: The complete printed log of a run that downloads is: the licence
    (and OS warning), the search line, one line per shortcut file in
    enumeration order, a blank line, the number of icons found (the number
    of distinct Steam ids queued), the prompt, a blank line, the download
    count, one line per record in dict order, and the completion line with
    the error count. *)
Theorem main_trace c :
  (∀ e, e ∈ entries → Scanner.readable e) → omap Scanner.queued entries ≠ [] →
  os_input = Some c → py_lower (txt c) = ⟪"y"⟫ →
  (∀ ic, ic ∈ omap Scanner.queued entries → Fetcher.served (steamid ic, ic) = true) →
  ∃ st', main argv init_state = (Normal (), st') ∧
         out st' = banner ++ EvSearching (nth 1 argv "") :: omap Scanner.scan_line entries ++
                   [EvBlank; EvFound (size (foldl Scanner.repair_step ∅ entries)); EvPrompt;
                    EvBlank; EvDownloading (size (foldl Scanner.repair_step ∅ entries))] ++
                   map Fetcher.fetch_line (icons st') ++ [EvCompleted (errors st')].
Proof.
  intros Hr Hq Hc Hy Hs.
  destruct (download_run c Hr Hq Hc Hy Hs)
    as (st1 & st' & Hmain & _ & Hwf & Hmap & Ho1 & Hic & _ & _ & Hout).
  exists st'. split; [done|].
  rewrite <-Hmap, dict_to_map_size, Hout, Ho1, Hic by done.
  unfold scan_start, printed. simpl. by rewrite <-!app_assoc.
Qed.

(** C12: An unreadable .url file aborts the whole run with the TypeError
    raised by error.with_traceback() in the exception handler: exit status 1
    and no download request, instead of being logged and skipped. *)
Theorem main_unreadable es1 e es2 err :
  entries = es1 ++ e :: es2 → (∀ e', e' ∈ es1 → Scanner.readable e') →
  Scanner.is_shortcut_file e = true → de_read e = ReadFail err → is_Exception err = true →
  (main argv init_state).1 = Raised TypeError ∧
  exit_status (main argv init_state).1 = 1%Z ∧ requests (main argv init_state).2 = [].
Proof.
  intros Hes Hr Hsf Hd He. rewrite main_on_dir by done. fold entries scan_start. rewrite Hes.
  destruct (Scanner.scan_aborts_core es1 e es2 err scan_start Hr Hsf Hd He) as (st1 & H1 & H2).
  destruct (Scanner.scan_entries_frame _ _ _ _ H1) as (_ & Hreq & _).
  rewrite (stm_bind_raised _ _ _ _ _ H2). simpl. by rewrite Hreq.
Qed.

(** C13: If the record kept for some Steam id is refused by the CDN (a
    status that is not ok) or the connection fails, the run ends with an
    uncaught exception (exit status 1) instead of counting a download
    failure. *)
Theorem main_download_rejected c k ic :
  (∀ e, e ∈ entries → Scanner.readable e) →
  os_input = Some c → py_lower (txt c) = ⟪"y"⟫ →
  foldl Scanner.repair_step ∅ entries !! k = Some ic → Fetcher.served (k, ic) = false →
  exit_status (main argv init_state).1 = 1%Z.
Proof.
  intros Hr Hc Hy Hk Hs.
  destruct scan_phase as (st1 & Hrun & Hwf & Hmap & _); [done|].
  assert ((k, ic) ∈ icons st1) as Hin.
  { apply (dict_get_Some k ic). by rewrite <-dict_to_map_lookup, Hmap. }
  assert (icons st1 ≠ []) as Hne by (intros Hi; rewrite Hi in Hin; by apply not_elem_of_nil in Hin).
  pose proof (confirm_answer (printed st1 [EvBlank]) c Hne Hc) as Hconf.
  rewrite bool_decide_eq_true_2 in Hconf by done.
  rewrite (main_after_scan st1 Hrun), (stm_bind_normal _ _ _ _ _ Hconf).
  destruct (Fetcher.fetch_all_unserved (printed (printed st1 [EvBlank])
      [EvFound (length (icons (printed st1 [EvBlank]))); EvPrompt; EvBlank]))
    as (e & st' & -> & He); [by exists (k, ic)|].
  by apply exit_status_exception.
Qed.

End on_dir.

End with_os.

(** ** Concrete runs *)

(** A Windows machine whose desktop holds [es], whose CDN answers
    [reply], and whose user types [answer]. *)
Definition desk_os (es : list dir_entry) (reply : string → http_result)
    (answer : option string) : OS := {|
  os_is_nt := true;
  os_kind := @os_kind Scanner.demo_os;
  os_scandir := λ p, if bool_decide (p = Scanner.desktop) then es else [];
  os_listable := λ _, true;
  os_get := reply;
  os_writable := λ _, true;
  os_input := answer
|}.

Definition cdn_ok (url : string) : http_result := HttpResponse 200 [Byte.x00].
Definition cdn_refuses (bad : string) (url : string) : http_result :=
  if bool_decide (url = bad) then HttpResponse 404 [] else cdn_ok url.

Definition argv_desktop : list string := ["sif.exe"; Scanner.desktop].

(** A desktop that the user may not list. *)
Definition denied_os : OS := {|
  os_is_nt := true;
  os_kind := @os_kind Scanner.demo_os;
  os_scandir := λ _, Scanner.demo_entries;
  os_listable := λ _, false;
  os_get := cdn_ok;
  os_writable := λ _, true;
  os_input := Some "y"
|}.

Lemma main_unlistable_witness :
  main (os := denied_os) argv_desktop init_state =
  (Raised OSError, printed init_state (banner (os := denied_os) ++ [EvSearching Scanner.desktop])).
Proof. apply main_unlistable; [simpl; lia | reflexivity | reflexivity]. Defined.

Lemma main_usage_witness :
  main (os := desk_os [] cdn_ok None) ["sif.exe"] init_state =
  (Raised (SystemExit 0), printed init_state (banner (os := desk_os [] cdn_ok None) ++ [EvUsage])).
Proof. apply main_usage. simpl. lia. Defined.

Lemma main_missing_path_witness :
  main (os := desk_os [] cdn_ok None) ["sif.exe"; "D:\Nowhere"] init_state =
  (Raised (SystemExit 1),
   printed init_state (banner (os := desk_os [] cdn_ok None) ++ [EvDoesNotExist "D:\Nowhere"])).
Proof. apply main_missing_path; [simpl; lia | reflexivity]. Defined.

Lemma main_path_is_file_witness :
  main (os := desk_os [] cdn_ok None) ["sif.exe"; Scanner.tf2_ico] init_state =
  (Raised (SystemExit 2),
   printed init_state (banner (os := desk_os [] cdn_ok None) ++ [EvIsAFile Scanner.tf2_ico])).
Proof. apply main_path_is_file; [simpl; lia | reflexivity]. Defined.

Definition no_repair_entries : list dir_entry := [
  DirEntry "notes.txt" true (ReadOk ⟪"hello"⟫);
  DirEntry "Team Fortress 2.url" true (ReadOk (Scanner.steam_shortcut "440" Scanner.tf2_ico))
].

Lemma main_no_icons_witness :
  let o := desk_os no_repair_entries cdn_ok None in
  exit_status (main (os := o) argv_desktop init_state).1 = 0%Z ∧
  requests (main (os := o) argv_desktop init_state).2 = [] ∧
  last (out (main (os := o) argv_desktop init_state).2) = Some EvNoIcons.
Proof.
  apply (main_no_icons (os := desk_os no_repair_entries cdn_ok None) argv_desktop
           ltac:(simpl; lia) eq_refl eq_refl);
    [apply Scanner.all_readable; reflexivity | reflexivity].
Defined.

Lemma main_declined_witness :
  let o := desk_os Scanner.demo_entries cdn_ok (Some "n") in
  exit_status (main (os := o) argv_desktop init_state).1 = 0%Z ∧
  requests (main (os := o) argv_desktop init_state).2 = [] ∧
  last (out (main (os := o) argv_desktop init_state).2) = Some EvCancelled.
Proof.
  apply (main_declined (os := desk_os Scanner.demo_entries cdn_ok (Some "n")) argv_desktop
           ltac:(simpl; lia) eq_refl eq_refl "n");
    [apply Scanner.all_readable; reflexivity | done | reflexivity | done].
Defined.

Lemma main_downloads_witness :
  let o := desk_os Scanner.demo_entries cdn_ok (Some "Y") in
  ∃ st', main (os := o) argv_desktop init_state = (Normal (), st') ∧
         dict_to_map (icons st') = foldl (Scanner.repair_step (os := o)) ∅ Scanner.demo_entries ∧
         (errors st', written st') = Fetcher.spec_fetch (os := o) (icons st') ∧
         requests st' = map (λ item, Fetcher.icon_url item.1 item.2) (icons st') ∧
         last (out st') = Some (EvCompleted (errors st')).
Proof.
  apply (main_downloads (os := desk_os Scanner.demo_entries cdn_ok (Some "Y")) argv_desktop
           ltac:(simpl; lia) eq_refl eq_refl "Y");
    [apply Scanner.all_readable; reflexivity | done | reflexivity | reflexivity
    | apply forallb_elem_of; reflexivity].
Defined.

Lemma main_trace_witness :
  let o := desk_os Scanner.demo_entries cdn_ok (Some "y") in
  ∃ st', main (os := o) argv_desktop init_state = (Normal (), st') ∧
         out st' = banner (os := o) ++ EvSearching (nth 1 argv_desktop "") ::
                   omap (Scanner.scan_line (os := o)) Scanner.demo_entries ++
                   [EvBlank; EvFound (size (foldl (Scanner.repair_step (os := o)) ∅ Scanner.demo_entries));
                    EvPrompt; EvBlank;
                    EvDownloading (size (foldl (Scanner.repair_step (os := o)) ∅ Scanner.demo_entries))] ++
                   map (Fetcher.fetch_line (os := o)) (icons st') ++ [EvCompleted (errors st')].
Proof.
  apply (main_trace (os := desk_os Scanner.demo_entries cdn_ok (Some "y")) argv_desktop
           ltac:(simpl; lia) eq_refl eq_refl "y");
    [apply Scanner.all_readable; reflexivity | done | reflexivity | reflexivity
    | apply forallb_elem_of; reflexivity].
Defined.

Lemma main_eof_witness :
  let o := desk_os Scanner.demo_entries cdn_ok None in
  (main (os := o) argv_desktop init_state).1 = Raised EOFError ∧
  exit_status (main (os := o) argv_desktop init_state).1 = 1%Z ∧
  requests (main (os := o) argv_desktop init_state).2 = [].
Proof.
  apply (main_eof (os := desk_os Scanner.demo_entries cdn_ok None) argv_desktop
           ltac:(simpl; lia) eq_refl eq_refl);
    [apply Scanner.all_readable; reflexivity | done | reflexivity].
Defined.

Definition locked_entries : list dir_entry :=
  [List.hd Scanner.locked_entry Scanner.demo_entries; Scanner.locked_entry;
   List.last Scanner.demo_entries Scanner.locked_entry].

Lemma main_unreadable_witness :
  let o := desk_os locked_entries cdn_ok (Some "y") in
  (main (os := o) argv_desktop init_state).1 = Raised TypeError ∧
  exit_status (main (os := o) argv_desktop init_state).1 = 1%Z ∧
  requests (main (os := o) argv_desktop init_state).2 = [].
Proof.
  apply (main_unreadable (os := desk_os locked_entries cdn_ok (Some "y")) argv_desktop
           ltac:(simpl; lia) eq_refl eq_refl [List.hd Scanner.locked_entry Scanner.demo_entries]
           Scanner.locked_entry [List.last Scanner.demo_entries Scanner.locked_entry] OSError);
    [reflexivity | apply Scanner.all_readable; reflexivity | reflexivity ..].
Defined.

(** The CDN refuses the second Dota 2 icon, which is the record the dict
    keeps for id 570 (last scanned wins). *)
Definition dota2_url : string := Fetcher.icon_url "570" (MkIcon "570" Scanner.dota_ico2 "dota2.ico").

Lemma main_download_rejected_witness :
  exit_status (main (os := desk_os Scanner.demo_entries (cdn_refuses dota2_url) (Some "y"))
                 argv_desktop init_state).1 = 1%Z.
Proof.
  apply (main_download_rejected (os := desk_os Scanner.demo_entries (cdn_refuses dota2_url) (Some "y"))
           argv_desktop ltac:(simpl; lia) eq_refl eq_refl "y" "570"
           (MkIcon "570" Scanner.dota_ico2 "dota2.ico"));
    [apply Scanner.all_readable; reflexivity | reflexivity | reflexivity
    | vm_compute; reflexivity | reflexivity].
Defined.

End Program.
