(* ===== verification/Messages.v ===== *)
(** * Messages: the text the script prints

    The licence and usage texts (lines 27-56), the text of every [print]
    call of the script as a function of the printed [event], the colour
    each call passes to [termcolor.colored], and the console output of a
    list of events: each [print] writes its argument followed by a line
    feed, except the prompt of line 147 ([end=""]).

    [colored(text, c)] of termcolor wraps the text in the ANSI select
    graphic rendition sequence of colour [c] and the reset sequence when
    colouring is enabled; whether it is depends on the terminal and on the
    environment variables termcolor reads, so it is the parameter [ansi].
    Numbers are printed with [str(int)], i.e. in decimal: stdpp's
    [pretty].  The last theorem gives the console text of a run on a
    path that does not exist. *)

From stdpp Require Import pretty.
From S2P Require Import Prelude Runtime Program.

Set Warnings "-clear-no-such-hyp".

Module Messages.

(** A double quote, which the texts contain. *)
Definition DQ : string := String "034"%char EmptyString.

(** [license] (lines 27-41); the literal starts with a line feed. *)
Definition license : string :=
  "
Steam Icon Fixer, Version 1.0
Copyright (C) 2023 Liam " +:+ DQ +:+ "AyesC" +:+ DQ +:+ " Hogan

This program is free software: you can redistribute it and/or modify
it under the terms of the GNU General Public License as published by
the Free Software Foundation, either version 3 of the License, or
(at your option) any later version.

This program is distributed in the hope that it will be useful,
but WITHOUT ANY WARRANTY; without even the implied warranty of
MERCHANTABILITY or FITNESS FOR A PARTICULAR PURPOSE. See the
GNU General Public License for more details.

You should have received a copy of the GNU General Public License
along with this program. If not, see https://www.gnu.org/licenses/.".

(** [usage] (lines 43-56); each [\\] of the literal is one backslash. *)
Definition usage : string :=
  "---------------------------------------------

Usage:
sif.exe <path to file>

Examples:
sif.exe C:\Users\user\Desktop
sif.exe " +:+ DQ +:+ "C:\Users\user\Desktop\Steam Games" +:+ DQ +:+ "
sif.exe " +:+ DQ +:+ "C:\Users\user\AppData\Roaming\Microsoft\Windows\Start Menu\Programs\Steam" +:+ DQ +:+ "

Errors & Exit Codes:
<path> does not exist. (exit code 1): The specified directory does not exist.
<path> is a file. (exit code 2): The specified path is not a directory.
".

(** The argument of each [print] call, before colouring. *)
Definition message (ev : event) : string :=
  match ev with
  | EvLicense => license +:+ "

"
  | EvNotWindows => "This program is not compatible with your operating system. You may only run this program on a Windows system."
  | EvUsage => usage
  | EvDoesNotExist p => p +:+ " does not exist."
  | EvIsAFile p => p +:+ " is a file."
  | EvSearching p => "Searching for valid Steam shortcuts in " +:+ p +:+ "..."
  | EvNotValidShortcut f => f +:+ ": File is not a valid internet shortcut. Skipping."
  | EvNotSteamShortcut f => f +:+ ": Shortcut doesn't appear to be a Steam shortcut. Skipping."
  | EvIconIsDirectory f =>
      f +:+ ": Icon path is a directory. This error must be fixed manually. Skipping."
  | EvIconPresent f => f +:+ ": Icon file is present, nothing needs to be done. Skipping."
  | EvIconMissing f => f +:+ ": Icon missing, valid Steam game. Will be redownloaded."
  | EvCouldNotOpen f =>
      f +:+ ": Could not open the file. Make sure it's not in use and it's permissions are set correctly. Skipping."
  | EvBlank => ""
  | EvNoIcons => "No icons need to be redownloaded. Refer to the log above for any errors."
  | EvFound n => "Found " +:+ pretty n +:+ " missing icons."
  | EvPrompt => "Do you want to redownload the icons? (y/N): "
  | EvCancelled => "Cancelled."
  | EvDownloading n => "Downloading " +:+ pretty n +:+ " icons..."
  | EvWriteFailed sid => sid +:+ ": Failed to write the icon to disk."
  | EvSaved sid => sid +:+ ": Downloaded and saved successfully."
  | EvCompleted n =>
      "
Downloading completed with " +:+ pretty n +:+ " errors. Refer to the above log for details."
  end.

Inductive colour : Type := Red | Green | Yellow.

(** The colour passed to [colored], if any. *)
Definition colour_of (ev : event) : option colour :=
  match ev with
  | EvNotWindows | EvNotValidShortcut _ | EvIconIsDirectory _ | EvCouldNotOpen _
  | EvCancelled | EvWriteFailed _ => Some Red
  | EvDoesNotExist _ | EvIsAFile _ | EvNotSteamShortcut _ | EvIconMissing _ => Some Yellow
  | EvIconPresent _ | EvSaved _ => Some Green
  | _ => None
  end.

Definition ESC : string := String "027"%char EmptyString.

(** termcolor's SGR codes: red 31, green 32, yellow 33. *)
Definition sgr (c : colour) : string :=
  ESC +:+ match c with Red => "[31m" | Green => "[32m" | Yellow => "[33m" end.

Section console.
Variable ansi : bool.

(** [termcolor.colored(text, c)] *)
Definition colored (text : string) (c : colour) : string :=
  if ansi then sgr c +:+ text +:+ ESC +:+ "[0m" else text.

(** What one [print] call writes. *)
Definition render (ev : event) : string :=
  let text := match colour_of ev with Some c => colored (message ev) c | None => message ev end in
  match ev with
  | EvPrompt => text
  | _ => text +:+ "
"
  end.

(** The console output of a list of printed lines. *)
Definition console (evs : list event) : string := foldr (λ ev s, render ev +:+ s) "" evs.

Lemma console_app l1 l2 : console (l1 ++ l2) = console l1 +:+ console l2.
Proof.
  induction l1 as [|ev l1 IH]; [done|]. unfold console in *. simpl.
  by rewrite IH, string_app_assoc.
Qed.

(** C32: On Windows, when the target path does not exist, the console shows
    the licence followed by two blank lines, then the path and does not
    exist. coloured yellow by termcolor, and nothing else. *)
Theorem console_missing_path `{OS} argv :
  os_is_nt = true → 2 ≤ length argv → os_kind (nth 1 argv "") = None →
  console (out (Program.main argv init_state).2) =
  license +:+ "

" +:+ "
" +:+ colored (nth 1 argv "" +:+ " does not exist.") Yellow +:+ "
".
Proof.
  intros Hnt Hlen Hk. unfold Program.main.
  rewrite (stm_bind_raised _ _ _ _ _ (Program.startup_missing argv init_state Hlen Hk)). simpl.
  unfold Program.banner. rewrite Hnt. unfold console. simpl.
  by rewrite !string_app_assoc, string_app_nil_r.
Qed.

End console.

Lemma console_missing_path_witness :
  console true (out (Program.main (os := Program.desk_os [] Program.cdn_ok None)
                       ["sif.exe"; "D:\Nowhere"] init_state).2) =
  license +:+ "

" +:+ "
" +:+ colored true ("D:\Nowhere" +:+ " does not exist.") Yellow +:+ "
".
Proof.
  apply (console_missing_path true (H := Program.desk_os [] Program.cdn_ok None)
           ["sif.exe"; "D:\Nowhere"]); [reflexivity | simpl; lia | reflexivity].
Defined.

End Messages.
