(* ===== verification/Safety.v ===== *)
(** * Safety: properties of every run of [src/sif.py]

    The theorems of [Program] follow particular runs.  This file proves
    properties of all runs, whatever the arguments, the directory, the
    contents of the files, the server's answers and the user's answer, and
    including the runs that end with an exception:

    - the script writes only to icon paths of repair records queued from
      the scanned directory, and each of those paths did not exist when it
      was checked (no file that existed before the run is overwritten;
      two games sharing an icon path do write it twice);
    - it makes at most one network request per [.url] file of the
      directory, and counts at most that many errors;
    - its exit status is 0, 1 or 2 when reading a shortcut can only fail
      with an [Exception], and 2 exactly when the argument names a regular
      file;
    - a run that completes requests every queued record's id and writes
      its icon or prints the write failure, and writes an icon path that
      the records of two ids share at least twice.

    Each phase of the script is first summarised by what its runs can do to
    the state ([startup_run], [confirm_run], [scan_entry_run],
    [fetch_one_run]); the phases are then composed with the Hoare rules of
    [Hoare]. *)

From Stdlib Require Strings.Byte.
From S2P Require Import Prelude Hoare PyText Regex PyDict Runtime Scanner Fetcher Program.

Set Warnings "-clear-no-such-hyp".

Module Safety.

(** Close [st' = printed st ?l] for a state built by prints. *)
Ltac printed_eq := unfold printed; rewrite <-?app_assoc; reflexivity.

Section with_os.
Context {os : OS}.

(** ** What each phase does to the state *)

(** Lines 65-85 only print, and either return [sys.argv[1]] or exit with
    status 0, 1 or 2. *)
Lemma startup_run argv st :
  ∃ l, (Program.startup argv st).2 = printed st l ∧
       ((Program.startup argv st).1 = Normal (nth 1 argv "") ∨
        ∃ c, (Program.startup argv st).1 = Raised (SystemExit c) ∧ (c = 0 ∨ c = 1 ∨ c = 2)%Z).
Proof.
  unfold Program.startup, sys_exit, throw, print, modify; unfold_stm.
  destruct os_is_nt, (length argv <? 2), (path_exists (nth 1 argv "")),
    (path_isfile (nth 1 argv "")); simpl;
    eexists; (split; [printed_eq|]); eauto 10.
Qed.

(** [sys.exit(2)] is reached only from the is-a-file test of line 83. *)
Lemma startup_exit_two argv st :
  (Program.startup argv st).1 = Raised (SystemExit 2) →
  2 ≤ length argv ∧ os_kind (nth 1 argv "") = Some KFile.
Proof.
  unfold Program.startup, sys_exit, throw, print, modify; unfold_stm.
  destruct os_is_nt, (length argv <? 2) eqn:Hl, (path_exists (nth 1 argv "")),
    (path_isfile (nth 1 argv "")) eqn:Hf; simpl; intros [=].
  all: apply Nat.ltb_ge in Hl; split; [done|].
  all: unfold path_isfile in Hf; by destruct (os_kind _) as [[]|].
Qed.

(** Lines 140-155 only print, and either continue or exit with status 0 or
    raise [EOFError] at end of input. *)
Lemma confirm_run st :
  ∃ l, (Program.confirm st).2 = printed st l ∧
       ((Program.confirm st).1 = Normal () ∨ (Program.confirm st).1 = Raised (SystemExit 0) ∨
        (Program.confirm st).1 = Raised EOFError).
Proof.
  unfold Program.confirm, Program.py_input, get_state, sys_exit, throw, print, modify; unfold_stm.
  destruct (length (icons st) <? 1); simpl; [eexists; split; [printed_eq|eauto]|].
  destruct os_input as [c|]; simpl; [destruct (bool_decide _); simpl|];
    eexists; (split; [printed_eq|]); eauto.
Qed.

(** One iteration of the scan loop prints, may assign the record the
    entry queues, and completes, raises [TypeError] from the handler, or
    re-raises a read failure that is not an [Exception]. *)
Lemma scan_entry_run e st :
  ∃ l, out (Scanner.scan_entry e st).2 = out st ++ l ∧
       errors (Scanner.scan_entry e st).2 = errors st ∧
       requests (Scanner.scan_entry e st).2 = requests st ∧
       written (Scanner.scan_entry e st).2 = written st ∧
       (icons (Scanner.scan_entry e st).2 = icons st ∨
        ∃ ic, Scanner.queued e = Some ic ∧
              icons (Scanner.scan_entry e st).2 = dict_set (steamid ic) ic (icons st)) ∧
       ((Scanner.scan_entry e st).1 = Normal () ∨ (Scanner.scan_entry e st).1 = Raised TypeError ∨
        ∃ err, de_read e = ReadFail err ∧ is_Exception err = false ∧
               (Scanner.scan_entry e st).1 = Raised err).
Proof.
  unfold Scanner.scan_entry, Scanner.queued, Scanner.is_shortcut_file, print, set_icon, modify;
    unfold_stm.
  destruct (de_is_file e), (py_endswith _ _); simpl;
    try (exists []; rewrite app_nil_r; by split_and!; [..|left|left]).
  destruct (de_read e) as [raw|err]; simpl.
  - destruct (Scanner.classify _); simpl; eexists; split_and!; try done;
      first [by left | by right; eauto].
  - destruct (is_Exception err) eqn:He; simpl; [eexists|exists []];
      split_and!; try done; try (by rewrite app_nil_r);
      first [by left | by right; left | by right; right; eauto].
Qed.

(** One iteration of the download loop issues one request, keeps the dict,
    counts at most one error, writes at most the icon's file, and completes
    or raises [TypeError] (line 169) or [RequestException]. *)
Lemma fetch_one_run sid ic st :
  icons (Fetcher.fetch_one (sid, ic) st).2 = icons st ∧
  requests (Fetcher.fetch_one (sid, ic) st).2 = requests st ++ [Fetcher.icon_url sid ic] ∧
  (errors (Fetcher.fetch_one (sid, ic) st).2 = errors st ∨
   errors (Fetcher.fetch_one (sid, ic) st).2 = S (errors st)) ∧
  (written (Fetcher.fetch_one (sid, ic) st).2 = written st ∨
   ∃ body, written (Fetcher.fetch_one (sid, ic) st).2 = written st ++ [(path ic, body)]) ∧
  ((Fetcher.fetch_one (sid, ic) st).1 = Normal () ∨
   (Fetcher.fetch_one (sid, ic) st).1 = Raised TypeError ∨
   (Fetcher.fetch_one (sid, ic) st).1 = Raised RequestException).
Proof.
  unfold Fetcher.fetch_one, Fetcher.incr_errors, get_state, set_errors, log_request, log_write,
    print, modify; unfold_stm. simpl.
  destruct (os_get _) as [status body|]; simpl; [|by split_and!; auto].
  destruct (Fetcher.response_ok status); simpl; [|by split_and!; auto].
  destruct (os_writable (path ic)); simpl; split_and!; eauto.
Qed.

(** A record is queued only when its icon path does not exist. *)
Lemma queued_missing e ic : Scanner.queued e = Some ic → os_kind (path ic) = None.
Proof.
  unfold Scanner.queued, Scanner.classify. destruct (Scanner.is_shortcut_file e); [|done].
  destruct (de_read e); [|done]. repeat case_match; simplify_eq/=; try done.
  intros [= <-]. simpl. by apply path_exists_false.
Qed.

(** ** Composing the phases *)

Section phases.
Variable I : state → Prop.
Variable G : exn → Prop.
Hypothesis I_printed : ∀ s l, I s → I (printed s l).

(** From a summary [o = v1 ∨ o = v2 ∨ ...] of the outcome, reduce a goal
    [∀ e, o = Raised e → G e] to the exceptions listed. *)
Ltac raised_cases :=
  let e := fresh "e" in let He := fresh "He" in
  intros e He;
  repeat match goal with
  | H : _ ∨ _ |- _ => destruct H | H : ∃ _, _ |- _ => destruct H | H : _ ∧ _ |- _ => destruct H
  end;
  match goal with H : ?x = _, He : ?x = Raised _ |- _ => rewrite H in He end; simplify_eq/=.

Lemma triple_print e : {{ I }} print e {{ raising I G }}.
Proof. intros s Hs. split; [apply (I_printed s [e] Hs)|done]. Qed.

Lemma triple_startup argv :
  (∀ s c, (Program.startup argv s).1 = Raised (SystemExit c) → G (SystemExit c)) →
  {{ I }} Program.startup argv {{ λ o s, raising I G o s ∧ ∀ a, o = Normal a → a = nth 1 argv "" }}.
Proof.
  intros HG s Hs. destruct (startup_run argv s) as (l & Hst & Ho). rewrite Hst.
  split; [split; [by apply I_printed|]|].
  - intros e He. destruct Ho as [H|(c & H & _)]; rewrite H in He; simplify_eq. by apply (HG s).
  - intros a Ha. destruct Ho as [H|(c & H & _)]; rewrite H in Ha; by simplify_eq.
Qed.

Lemma triple_confirm : G (SystemExit 0) → G EOFError → {{ I }} Program.confirm {{ raising I G }}.
Proof.
  intros H0 Heof s Hs. destruct (confirm_run s) as (l & -> & Ho).
  split; [by apply I_printed|raised_cases; done].
Qed.

Lemma triple_scan p :
  G NotADirectoryError → G OSError →
  (∀ e s, e ∈ os_scandir p → I s → raising I G (Scanner.scan_entry e s).1 (Scanner.scan_entry e s).2) →
  {{ I }} Scanner.scan p {{ raising I G }}.
Proof.
  intros Hnd Hos He. unfold Scanner.scan.
  apply (triple_bind_raising _ I _ _ (λ es, es = os_scandir p)); [..|done].
  - intros s Hs. unfold Scanner.py_scandir, throw, raising; unfold_stm.
    destruct (os_kind p) as [[]|]; destruct (os_listable p); simpl;
      split_and!; try done; first [by intros ? [= <-] | by intros ? [=]].
  - intros es ->. apply triple_mfor_raise. intros e Hin s Hs. by apply He.
Qed.

Lemma triple_fetch_all :
  G TypeError → G RequestException →
  (∀ s, I s → I (MkState (icons s) (out s) 0 (requests s) (written s))) →
  (∀ item s, item ∈ icons s → I s → I (Fetcher.fetch_one item s).2) →
  {{ I }} Fetcher.fetch_all {{ raising I G }}.
Proof.
  intros Ht Hr Hset Hf s Hs. unfold Fetcher.fetch_all, get_state, print, set_errors, modify; unfold_stm.
  cbn -[mfor].
  set (s1 := MkState (icons s) (out s ++ [EvDownloading (length (icons s))]) 0 (requests s)
               (written s)).
  assert (I s1) as Hs1 by (apply (Hset (printed s [EvDownloading (length (icons s))])), I_printed, Hs).
  destruct (mfor (icons s) Fetcher.fetch_one s1) as [o s2] eqn:E.
  assert (raising (λ s', I s' ∧ icons s' = icons s) G o s2) as [[Hs2 _] HG].
  { refine (triple_run _ _ _ _ _ _ (triple_mfor_raise _ _ _ _ _) _ E); [|done].
    intros [sid ic] Hin s' [HI Hic]. rewrite <-Hic in Hin.
    destruct (fetch_one_run sid ic s') as (Hic' & _ & _ & _ & Ho).
    split; [split; [by apply (Hf _ _ Hin HI)|congruence]|raised_cases; done]. }
  destruct o as [[]|e]; simpl; split; [apply (I_printed s2 [_] Hs2)|done|done|by apply HG].
Qed.

(** Whatever the arguments and the environment, a property [J] of the
    final state holds when a property [I] that printing does not affect
    and that every iteration of the scan loop keeps holds before the
    download phase and implies [J], and the download phase establishes
    [J]; the run raises only exceptions [G] allows. *)
Lemma triple_main_then argv (J : state → Prop) :
  (∀ s c, (Program.startup argv s).1 = Raised (SystemExit c) → G (SystemExit c)) →
  G (SystemExit 0) → G NotADirectoryError → G OSError → G EOFError →
  (∀ e s, e ∈ os_scandir (nth 1 argv "") → I s →
          raising I G (Scanner.scan_entry e s).1 (Scanner.scan_entry e s).2) →
  (∀ s, I s → J s) →
  {{ I }} Fetcher.fetch_all {{ raising J G }} →
  {{ I }} Program.main argv {{ raising J G }}.
Proof.
  intros Hexit H0 Hnd Hos Heof He HIJ Hfetch. unfold Program.main.
  apply (triple_bind_raising _ I _ _ (λ a, a = nth 1 argv "")); [by apply triple_startup| |done].
  intros a ->. cbv beta.
  apply triple_bind_raising_seq; [apply triple_print|intros _|done].
  apply triple_bind_raising_seq; [by apply triple_scan|intros _|done].
  apply triple_bind_raising_seq; [apply triple_print|intros _|done].
  apply triple_bind_raising_seq; [by apply triple_confirm|intros _|done].
  done.
Qed.

End phases.

(** ** Where the effects of a run come from *)

(** [ic] is the repair record some entry of the listing of [p] queues. *)
Definition queued_from (p : string) (ic : Icon) : Prop :=
  ∃ e, e ∈ os_scandir p ∧ Scanner.queued e = Some ic.

(** Every dict entry is a queued record under its own id, every URL
    requested is the CDN URL of a queued record, and every file written is
    the icon path of a queued record. *)
Definition effects_from (p : string) (s : state) : Prop :=
  (∀ item, item ∈ icons s → item.1 = steamid item.2 ∧ queued_from p item.2) ∧
  (∀ u, u ∈ requests s → ∃ ic, queued_from p ic ∧ u = Fetcher.icon_url (steamid ic) ic) ∧
  (∀ w, w ∈ written s → ∃ ic, queued_from p ic ∧ w.1 = path ic).

Lemma effects_from_scan_entry p e s :
  e ∈ os_scandir p → effects_from p s → effects_from p (Scanner.scan_entry e s).2.
Proof.
  intros Hin (Hi & Hr & Hw). unfold effects_from. destruct (scan_entry_run e s) as (l & _ & _ & -> & -> & Hic & _).
  split_and!; [|done|done]. intros item.
  destruct Hic as [-> | (ic & Hq & ->)]; [apply Hi|].
  intros [-> | ?]%dict_set_elem_of; [|by apply Hi]. split; [done|]. by exists e.
Qed.

Lemma effects_from_fetch_one p item s :
  item ∈ icons s → effects_from p s → effects_from p (Fetcher.fetch_one item s).2.
Proof.
  destruct item as [sid ic]. intros Hin (Hi & Hr & Hw).
  destruct (Hi _ Hin) as [Hsid Hq]; simpl in Hsid, Hq.
  unfold effects_from. destruct (fetch_one_run sid ic s) as (-> & -> & _ & Hwr & _).
  split_and!; [done| |].
  - intros u [Hu | ->%list_elem_of_singleton]%elem_of_app; [by apply Hr|]. subst sid. by exists ic.
  - destruct Hwr as [-> | (body & ->)]; [done|].
    intros w [Hw' | ->%list_elem_of_singleton]%elem_of_app; [by apply Hw|]. by exists ic.
Qed.

Lemma effects_from_main argv :
  {{ effects_from (nth 1 argv "") }} Program.main argv
  {{ raising (effects_from (nth 1 argv "")) (λ _, True) }}.
Proof.
  apply triple_main_then; try done.
  - intros e s Hin Hs. split; [by apply effects_from_scan_entry|done].
  - apply triple_fetch_all; try done. intros item s Hin Hs. by apply effects_from_fetch_one.
Qed.

Lemma effects_from_init p : effects_from p init_state.
Proof. split_and!; by intros ? ?%elem_of_nil. Qed.

(** ** Counting requests and errors *)

(** The distinct Steam ids the listing of [p] queues. *)
Definition queued_ids (p : string) : list string :=
  remove_dups (omap (λ e, steamid <$> Scanner.queued e) (os_scandir p)).

(** A dict with unique keys of records queued under their ids has at most
    as many entries as there are distinct queued ids. *)
Lemma icons_length_bound p s :
  effects_from p s → dict_wf (icons s) → length (icons s) ≤ length (queued_ids p).
Proof.
  intros [Hi _] Hwf. rewrite <-(length_fmap fst (icons s)).
  apply submseteq_length, NoDup_submseteq; [done|].
  intros k ([k' ic] & -> & Hin)%list_elem_of_fmap. destruct (Hi _ Hin) as [Hk (e & He & Hq)].
  simpl in *. subst k'. apply elem_of_remove_dups, list_elem_of_omap. exists e. by rewrite Hq.
Qed.

(** The download loop issues one request per completed or aborting
    iteration and counts at most one error per iteration. *)
Lemma fetch_loop_counts items st :
  ∃ k, k ≤ length items ∧
       length (requests (mfor items Fetcher.fetch_one st).2) = length (requests st) + k ∧
       errors (mfor items Fetcher.fetch_one st).2 ≤ errors st + k ∧
       icons (mfor items Fetcher.fetch_one st).2 = icons st.
Proof.
  revert st. induction items as [|[sid ic] items IH]; intros st; [exists 0; simpl; split_and!; auto with lia|].
  cbn [mfor]. destruct (fetch_one_run sid ic st) as (Hic & Hrq & Her & _).
  destruct (Fetcher.fetch_one (sid, ic) st) as [[[]|e] st1] eqn:E; simpl in *.
  - rewrite (stm_bind_normal _ _ _ _ _ E).
    destruct (IH st1) as (k & Hk & Hr & He & Hi). exists (S k).
    rewrite Hr, Hi, Hrq, length_app. simpl. split_and!; [lia|lia|destruct Her; lia|done].
  - rewrite (stm_bind_raised _ _ _ _ _ E). exists 1. simpl.
    rewrite Hrq, length_app. simpl. split_and!; [lia|lia|destruct Her; lia|done].
Qed.

(** Before the downloads: nothing requested, no error counted, keys
    unique. *)
Definition before_downloads (s : state) : Prop :=
  requests s = [] ∧ errors s = 0 ∧ dict_wf (icons s).

(** After (or during) the downloads. *)
Definition download_counts (s : state) : Prop :=
  errors s ≤ length (requests s) ∧ length (requests s) ≤ length (icons s) ∧ dict_wf (icons s).

Lemma download_counts_fetch_all :
  {{ before_downloads }} Fetcher.fetch_all {{ raising download_counts (λ _, True) }}.
Proof.
  intros s (Hr & _ & Hwf). unfold Fetcher.fetch_all, get_state, print, set_errors, modify; unfold_stm.
  cbn -[mfor].
  set (s1 := MkState (icons s) (out s ++ [EvDownloading (length (icons s))]) 0 (requests s)
               (written s)).
  destruct (fetch_loop_counts (icons s) s1) as (k & Hk & Hrk & Hek & Hik).
  destruct (mfor (icons s) Fetcher.fetch_one s1) as [o s2]; simpl in *.
  rewrite Hr in Hrk. simpl in Hrk.
  destruct o as [[]|e]; simpl; (split; [|done]); unfold download_counts; simpl; rewrite Hik;
    split_and!; try done; lia.
Qed.

Lemma download_counts_main argv :
  {{ before_downloads }} Program.main argv {{ raising download_counts (λ _, True) }}.
Proof.
  apply triple_main_then; try done.
  - intros e s Hin (Hr & He & Hwf). split; [|done]. unfold before_downloads.
    destruct (scan_entry_run e s) as (l & _ & -> & -> & _ & Hic & _).
    split_and!; [done|done|]. destruct Hic as [-> | (ic & _ & ->)]; [done|]. by apply dict_set_wf.
  - intros s (Hr & He & Hwf). unfold download_counts. rewrite Hr, He. split_and!; simpl; [lia|lia|done].
  - apply download_counts_fetch_all.
Qed.

(** ** The exceptions a run can end with *)

(** A read failure of every entry is an [Exception] (an [OSError] or a
    [UnicodeDecodeError], as [open] and [read] raise). *)
Definition reads_raise_exceptions (es : list dir_entry) : bool :=
  forallb (λ e, match de_read e with ReadFail err => is_Exception err | ReadOk _ => true end) es.

(** The exceptions after which the process exits with status 0, 1 or 2,
    and with status 2 only when the argument names a regular file. *)
Definition documented_exit (argv : list string) (e : exn) : Prop :=
  ∀ c, e = SystemExit c →
       (c = 0 ∨ c = 1 ∨ c = 2)%Z ∧
       (c = 2%Z → 2 ≤ length argv ∧ os_kind (nth 1 argv "") = Some KFile).

Lemma documented_exit_main argv :
  reads_raise_exceptions (os_scandir (nth 1 argv "")) = true →
  {{ λ _, True }} Program.main argv {{ raising (λ _, True) (documented_exit argv) }}.
Proof.
  intros Hread. apply triple_main_then; try done.
  - intros s c Hc c' [= <-]. split.
    + destruct (startup_run argv s) as (_ & _ & [H | (c'' & H & Hc'')]); rewrite H in Hc;
        simplify_eq; done.
    + intros ->. by apply (startup_exit_two argv s).
  - intros c [= <-]. split; [by left|done].
  - intros e s Hin _. split; [done|].
    destruct (scan_entry_run e s) as (_ & _ & _ & _ & _ & _ & Ho). intros err Herr.
    destruct Ho as [H | [H | (err' & Hrd & Hexc & H)]]; rewrite H in Herr; simplify_eq; [done|].
    pose proof (forallb_elem_of _ _ Hread e Hin) as He. simpl in He.
    by rewrite Hrd, Hexc in He.
  - by apply triple_fetch_all.
Qed.

(** ** Runs that complete *)

(** The download phase keeps the dict and only appends to the printed
    lines, the requests and the files written. *)
Definition download_extends (s s' : state) : Prop :=
  icons s' = icons s ∧ out s `prefix_of` out s' ∧ requests s `prefix_of` requests s' ∧
  written s `prefix_of` written s'.

Lemma download_extends_refl s : download_extends s s.
Proof. done. Qed.

Lemma download_extends_trans s1 s2 s3 :
  download_extends s1 s2 → download_extends s2 s3 → download_extends s1 s3.
Proof. intros (? & ? & ? & ?) (? & ? & ? & ?). split_and!; etrans; eauto. Qed.

Lemma download_extends_printed s l : download_extends s (printed s l).
Proof. split_and!; simpl; try done. by apply prefix_app_r. Qed.

(** Close [l ≼ l] and [l ≼ l ++ k]. *)
Ltac prefix_tac := solve [reflexivity | apply prefix_app_r; reflexivity].

Lemma fetch_one_extends item s : download_extends s (Fetcher.fetch_one item s).2.
Proof.
  destruct item as [sid ic].
  unfold Fetcher.fetch_one, Fetcher.incr_errors, get_state, set_errors, log_request, log_write,
    print, throw, modify; unfold_stm. simpl.
  destruct (os_get _) as [status body|]; simpl; [|split_and!; simpl; by try prefix_tac].
  destruct (Fetcher.response_ok status); simpl; [|split_and!; simpl; by try prefix_tac].
  destruct (os_writable (path ic)); simpl; split_and!; simpl; try done; rewrite <-?app_assoc; prefix_tac.
Qed.

(** A download that completes requested the record's URL and either
    wrote its icon path or printed the write-failure line. *)
Lemma fetch_one_normal sid ic s s' :
  Fetcher.fetch_one (sid, ic) s = (Normal (), s') →
  Fetcher.icon_url sid ic ∈ requests s' ∧
  ((∃ body, (path ic, body) ∈ written s') ∨ EvWriteFailed sid ∈ out s').
Proof.
  unfold Fetcher.fetch_one, Fetcher.incr_errors, get_state, set_errors, log_request, log_write,
    print, throw, modify; unfold_stm. simpl.
  destruct (os_get _) as [status body|]; simpl; [|done].
  destruct (Fetcher.response_ok status); simpl; [|done].
  destruct (os_writable (path ic)); simpl; intros [= <-]; simpl;
    (split; [apply elem_of_app; right; by left|]); [left; exists body|right]; apply elem_of_app; by right; left.
Qed.

Lemma fetch_loop_normal items s s' :
  mfor items Fetcher.fetch_one s = (Normal (), s') →
  download_extends s s' ∧
  ∀ sid ic, (sid, ic) ∈ items →
    Fetcher.icon_url sid ic ∈ requests s' ∧
    ((∃ body, (path ic, body) ∈ written s') ∨ EvWriteFailed sid ∈ out s').
Proof.
  revert s. induction items as [|[sid ic] items IH]; intros s H.
  - injection H as <-. split; [done|]. by intros ?? ?%not_elem_of_nil.
  - cbn [mfor] in H. apply stm_bind_normal_inv in H as ([] & s1 & H1 & H2).
    destruct (IH s1 H2) as [Hext Hall].
    pose proof (fetch_one_extends (sid, ic) s) as Hext1. rewrite H1 in Hext1.
    split; [by eapply download_extends_trans|].
    intros sid' ic' [[= -> ->] | Hin]%elem_of_cons; [|by apply Hall].
    destruct (fetch_one_normal sid ic s s1 H1) as [Hr Hw].
    destruct Hext as (_ & Ho & Hrq & Hwr). split; [by eapply elem_of_prefix|].
    destruct Hw as [(body & Hb) | Hf]; [left; exists body; by eapply elem_of_prefix|right; by eapply elem_of_prefix].
Qed.

(** The number of writes to a path [q] that may be written: a download
    that completes writes its icon path once. *)
Definition writes_to (q : string) (s : state) : nat := length (filter (λ w, w.1 = q) (written s)).

Lemma fetch_one_writes_to q sid ic s s' :
  os_writable q = true → Fetcher.fetch_one (sid, ic) s = (Normal (), s') →
  writes_to q s' = writes_to q s + length (filter (λ item : string * Icon, path item.2 = q) [(sid, ic)]).
Proof.
  unfold writes_to, Fetcher.fetch_one, Fetcher.incr_errors, get_state, set_errors, log_request,
    log_write, print, throw, modify; unfold_stm. simpl. intros Hq.
  destruct (os_get _) as [status body|]; simpl; [|done].
  destruct (Fetcher.response_ok status); simpl; [|done].
  rewrite filter_cons, filter_nil. simpl.
  destruct (decide (path ic = q)) as [<-|Hne]; simpl.
  - rewrite Hq. intros [= <-]. simpl. rewrite filter_app, length_app. simpl.
    rewrite filter_cons_True by done. simpl. lia.
  - destruct (os_writable (path ic)); intros [= <-]; simpl; [|lia].
    rewrite filter_app, length_app, filter_cons_False by done. simpl. lia.
Qed.

Lemma fetch_loop_writes_to q items s s' :
  os_writable q = true → mfor items Fetcher.fetch_one s = (Normal (), s') →
  writes_to q s' = writes_to q s + length (filter (λ item : string * Icon, path item.2 = q) items).
Proof.
  intros Hq. revert s. induction items as [|[sid ic] items IH]; intros s H.
  - injection H as <-. simpl. lia.
  - cbn [mfor] in H. apply stm_bind_normal_inv in H as ([] & s1 & H1 & H2).
    rewrite (IH s1 H2), (fetch_one_writes_to q sid ic s s1 Hq H1).
    rewrite (filter_app _ [(sid, ic)] items), length_app. simpl. lia.
Qed.

(** A run of the script that completes went through a scan loop that
    completed from an empty dict and a download loop over the resulting
    dict that completed. *)
Lemma main_normal_inv argv st' :
  Program.main argv init_state = (Normal (), st') →
  ∃ s2 s3 s5 s6,
    icons s2 = [] ∧ mfor (os_scandir (nth 1 argv "")) Scanner.scan_entry s2 = (Normal (), s3) ∧
    icons s5 = icons s3 ∧ mfor (icons s5) Fetcher.fetch_one s5 = (Normal (), s6) ∧
    download_extends s6 st'.
Proof.
  unfold Program.main. intros H.
  apply stm_bind_normal_inv in H as (a & s1 & Hst & H); cbv beta in H.
  destruct (startup_run argv init_state) as (l & Hs1 & Ho). rewrite Hst in Hs1, Ho. simpl in Hs1.
  destruct Ho as [[= ->] | (c & [=] & _)]. subst s1.
  apply stm_bind_normal_inv in H as ([] & s2 & Hp & H); cbv beta in H. rewrite print_printed in Hp. injection Hp as <-.
  apply stm_bind_normal_inv in H as ([] & s3 & Hscan & H); cbv beta in H.
  unfold Scanner.scan in Hscan. apply stm_bind_normal_inv in Hscan as (es & s2' & Hsd & Hloop).
  unfold Scanner.py_scandir, throw, mret, stm_ret in Hsd.
  destruct (os_kind (nth 1 argv "")) as [[]|]; destruct (os_listable (nth 1 argv ""));
    simpl in Hsd; simplify_eq.
  apply stm_bind_normal_inv in H as ([] & s4 & Hp & H); cbv beta in H. rewrite print_printed in Hp. injection Hp as <-.
  apply stm_bind_normal_inv in H as ([] & s5 & Hc & H); cbv beta in H.
  destruct (confirm_run (printed s3 [EvBlank])) as (l' & Hs5 & _). rewrite Hc in Hs5. simpl in Hs5. subst s5.
  unfold Fetcher.fetch_all, get_state, print, set_errors, modify in H; unfold_stm. cbn -[mfor] in H.
  set (s5 := MkState _ _ 0 _ _) in H.
  destruct (mfor _ Fetcher.fetch_one s5) as [[[]|e] s6] eqn:E; [|done].
  injection H as <-. exists (printed (printed init_state l) [EvSearching (nth 1 argv "")]), s3, s5, s6.
  split_and!; [done|exact Hloop|done|exact E|apply download_extends_printed].
Qed.

(** ** The properties *)

(** C5: In every run, whatever the arguments, the directory, the file
    contents, the server's answers and the user's answer, and whether the
    run completes or raises, every file the script writes is the icon path
    of a repair record queued from a shortcut of the scanned directory, and
    that path did not exist before the run: the script never overwrites a
    file that existed when it started. *)
Theorem main_writes_missing_icons argv w :
  w ∈ written (Program.main argv init_state).2 →
  ∃ e ic, e ∈ os_scandir (nth 1 argv "") ∧ Scanner.queued e = Some ic ∧
          w.1 = path ic ∧ os_kind (path ic) = None.
Proof.
  intros Hw. destruct (effects_from_main argv init_state (effects_from_init _)) as [(_ & _ & Hws) _].
  destruct (Hws w Hw) as (ic & (e & He & Hq) & ->). exists e, ic.
  split_and!; [done|done|done|]. by eapply queued_missing.
Qed.

(** C6: In every run, every URL the script requests is the CDN URL built at
    line 164 from a repair record queued from a shortcut of the scanned
    directory, under that record's own Steam id. *)
Theorem main_requests_queued argv u :
  u ∈ requests (Program.main argv init_state).2 →
  ∃ e ic, e ∈ os_scandir (nth 1 argv "") ∧ Scanner.queued e = Some ic ∧
          u = Fetcher.icon_url (steamid ic) ic.
Proof.
  intros Hu. destruct (effects_from_main argv init_state (effects_from_init _)) as [(_ & Hrs & _) _].
  destruct (Hrs u Hu) as (ic & (e & He & Hq) & ->). by exists e, ic.
Qed.

(** C7: In every run the error count printed at the end is at most the
    number of requests, and the number of requests is at most the number of
    distinct Steam ids queued from the directory: at most one download per
    game, even with several shortcuts for it. *)
Theorem main_request_bound argv :
  errors (Program.main argv init_state).2 ≤ length (requests (Program.main argv init_state).2) ≤
  length (queued_ids (nth 1 argv "")).
Proof.
  destruct (download_counts_main argv init_state) as [(He & Hr & Hwf) _]; [split_and!; by try constructor|].
  destruct (effects_from_main argv init_state (effects_from_init _)) as [Hef _].
  pose proof (icons_length_bound _ _ Hef Hwf). lia.
Qed.

(** C8: When reading a shortcut can only fail with an Exception (OSError,
    UnicodeDecodeError), every run exits with status 0, 1 or 2, whether it
    ends normally, by sys.exit or by an uncaught exception, and it exits
    with status 2 exactly when a path argument is given and names a regular
    file (line 85), as the usage text documents. *)
Theorem main_exit_status argv st :
  reads_raise_exceptions (os_scandir (nth 1 argv "")) = true →
  (exit_status (Program.main argv st).1 = 0 ∨ exit_status (Program.main argv st).1 = 1 ∨
   exit_status (Program.main argv st).1 = 2)%Z ∧
  (exit_status (Program.main argv st).1 = 2%Z ↔
   2 ≤ length argv ∧ os_kind (nth 1 argv "") = Some KFile).
Proof.
  intros Hread. destruct (documented_exit_main argv Hread st I) as [_ HG].
  split; [|split].
  - destruct (Program.main argv st).1 as [[]|[c| | | | | |]]; simpl; auto.
    by apply (HG _ eq_refl c eq_refl).
  - destruct (Program.main argv st).1 as [[]|[c| | | | | |]]; simpl; try discriminate.
    intros ->. by apply (HG _ eq_refl 2%Z eq_refl).
  - intros [Hlen Hk]. unfold Program.main.
    by rewrite (stm_bind_raised _ _ _ _ _ (Program.startup_file argv st Hlen Hk)).
Qed.

(** C9: In every run that completes normally, every repair record queued
    from the directory is acted on: its Steam id has an entry in the dict,
    the CDN URL of that entry is requested, and the entry's icon file is
    written or the write-failure line for the id is printed. *)
Theorem main_processes_every_queued_icon argv st' :
  Program.main argv init_state = (Normal (), st') →
  ∀ e ic, e ∈ os_scandir (nth 1 argv "") → Scanner.queued e = Some ic →
  ∃ ic', steamid ic' = steamid ic ∧ (steamid ic, ic') ∈ icons st' ∧
         Fetcher.icon_url (steamid ic) ic' ∈ requests st' ∧
         ((∃ body, (path ic', body) ∈ written st') ∨ EvWriteFailed (steamid ic) ∈ out st').
Proof.
  intros Hrun e ic Hin Hq.
  destruct (main_normal_inv argv st' Hrun) as (s2 & s3 & s5 & s6 & Hi2 & Hscan & Hi5 & Hfetch & Hext).
  destruct (Scanner.scan_icons_queued _ s2 s3 (Scanner.scan_normal_readable _ _ _ Hscan) Hi2 Hscan)
    as [Hall Hsome].
  destruct (Hsome ic) as [ic' Hget%dict_get_Some]; [apply list_elem_of_omap; by exists e|].
  destruct (Hall _ Hget) as (ic'' & [= Hid <-] & _).
  destruct (fetch_loop_normal _ _ _ Hfetch) as [(Hic6 & _) Hdl]. rewrite Hi5 in Hdl, Hic6.
  destruct (Hdl _ _ Hget) as [Hr Hw]. destruct Hext as (Hic & Ho & Hrq & Hwr).
  exists ic'. split_and!; [done|by rewrite Hic, Hic6|by eapply elem_of_prefix|].
  destruct Hw as [(body & Hb) | Hf]; [left; exists body|right]; by eapply elem_of_prefix.
Qed.

(** C10: In every run that completes, when the final dict holds records of
    two different Steam ids whose icon paths are the same writable path,
    that path is written at least twice: records are keyed by id, not by
    path, so the second download replaces the first game's icon. *)
Theorem main_shared_icon_path_written_twice argv st' k1 ic1 k2 ic2 :
  Program.main argv init_state = (Normal (), st') →
  (k1, ic1) ∈ icons st' → (k2, ic2) ∈ icons st' → k1 ≠ k2 →
  path ic1 = path ic2 → os_writable (path ic1) = true →
  2 ≤ length (filter (λ w, w.1 = path ic1) (written st')).
Proof.
  intros Hrun H1 H2 Hk Hp Hw.
  destruct (main_normal_inv argv st' Hrun)
    as (s2 & s3 & s5 & s6 & _ & _ & _ & Hfetch & (Hic & _ & _ & [l Hwr])).
  destruct (fetch_loop_normal _ _ _ Hfetch) as [(Hic6 & _) _].
  rewrite Hic, Hic6 in H1, H2.
  pose proof (fetch_loop_writes_to (path ic1) _ _ _ Hw Hfetch) as Hc. unfold writes_to in Hc.
  assert (2 ≤ length (filter (λ item : string * Icon, path item.2 = path ic1) (icons s5))).
  { apply (two_elem_length _ (k1, ic1) (k2, ic2)); [apply list_elem_of_filter; by split..|congruence]. }
  rewrite Hwr, filter_app, length_app. lia.
Qed.

End with_os.

(** ** Concrete runs *)

#[local] Instance byte_eq_dec : EqDecision Byte.byte := Stdlib.Strings.Byte.byte_eq_dec.

Lemma main_writes_missing_icons_witness :
  let o := Program.desk_os Scanner.demo_entries Program.cdn_ok (Some "y") in
  ∃ e ic, e ∈ os_scandir (OS := o) Scanner.desktop ∧ Scanner.queued (os := o) e = Some ic ∧
          Scanner.dota_ico2 = path ic ∧ os_kind (OS := o) (path ic) = None.
Proof.
  apply (main_writes_missing_icons (os := Program.desk_os Scanner.demo_entries Program.cdn_ok (Some "y"))
           Program.argv_desktop (Scanner.dota_ico2, [Byte.x00])).
  apply (bool_decide_unpack _). vm_compute. reflexivity.
Defined.

Lemma main_requests_queued_witness :
  let o := Program.desk_os Scanner.demo_entries Program.cdn_ok (Some "y") in
  ∃ e ic, e ∈ os_scandir (OS := o) Scanner.desktop ∧ Scanner.queued (os := o) e = Some ic ∧
          Program.dota2_url = Fetcher.icon_url (steamid ic) ic.
Proof.
  apply (main_requests_queued (os := Program.desk_os Scanner.demo_entries Program.cdn_ok (Some "y"))
           Program.argv_desktop Program.dota2_url).
  apply (bool_decide_unpack _). vm_compute. reflexivity.
Defined.

Lemma main_exit_status_witness :
  let o := Program.desk_os Program.locked_entries Program.cdn_ok (Some "y") in
  (exit_status (Program.main (os := o) Program.argv_desktop init_state).1 = 0 ∨
   exit_status (Program.main (os := o) Program.argv_desktop init_state).1 = 1 ∨
   exit_status (Program.main (os := o) Program.argv_desktop init_state).1 = 2)%Z ∧
  (exit_status (Program.main (os := o) Program.argv_desktop init_state).1 = 2%Z ↔
   2 ≤ length Program.argv_desktop ∧ os_kind (OS := o) (nth 1 Program.argv_desktop "") = Some KFile).
Proof.
  apply (main_exit_status (os := Program.desk_os Program.locked_entries Program.cdn_ok (Some "y"))).
  reflexivity.
Defined.

(** Two games whose shortcuts name the same icon file. *)
Definition shared_icon_entries : list dir_entry := [
  DirEntry "Dota 2.url" true (ReadOk (Scanner.steam_shortcut "570" Scanner.dota_ico));
  DirEntry "Team Fortress 2.url" true (ReadOk (Scanner.steam_shortcut "440" Scanner.dota_ico))
].

Lemma main_shared_icon_path_written_twice_witness :
  let o := Program.desk_os shared_icon_entries Program.cdn_ok (Some "y") in
  let st' := (Program.main (os := o) Program.argv_desktop init_state).2 in
  2 ≤ length (filter (λ w, w.1 = Scanner.dota_ico) (written st')).
Proof.
  apply (main_shared_icon_path_written_twice
           (os := Program.desk_os shared_icon_entries Program.cdn_ok (Some "y"))
           Program.argv_desktop _ "570" (MkIcon "570" Scanner.dota_ico "dota.ico")
           "440" (MkIcon "440" Scanner.dota_ico "dota.ico")).
  - vm_compute. reflexivity.
  - apply (bool_decide_unpack _). vm_compute. reflexivity.
  - apply (bool_decide_unpack _). vm_compute. reflexivity.
  - apply (bool_decide_unpack _). vm_compute. reflexivity.
  - reflexivity.
  - reflexivity.
Defined.

Lemma main_processes_every_queued_icon_witness :
  let o := Program.desk_os Scanner.demo_entries Program.cdn_ok (Some "y") in
  let st' := (Program.main (os := o) Program.argv_desktop init_state).2 in
  ∃ ic', steamid ic' = "570" ∧ ("570", ic') ∈ icons st' ∧
         Fetcher.icon_url "570" ic' ∈ requests st' ∧
         ((∃ body, (path ic', body) ∈ written st') ∨ EvWriteFailed "570" ∈ out st').
Proof.
  apply (main_processes_every_queued_icon
           (os := Program.desk_os Scanner.demo_entries Program.cdn_ok (Some "y"))
           Program.argv_desktop _ ltac:(vm_compute; reflexivity)
           (List.hd Scanner.locked_entry Scanner.demo_entries)
           (MkIcon "570" Scanner.dota_ico "dota.ico")); [by left | vm_compute; reflexivity].
Defined.

End Safety.
